(** * Kneser-Ney smoothing: a shallow embedding of [KN_smoothing.py]

    The class [KneserNeySmoothing] is embedded as a record [Engine] holding
    the attributes of [self], its methods as functions over that record.

    Conventions of the embedding:
    - Python [int] is [Z]; Python [float] is modelled by exact rationals [Q]
      (rounding is outside the model), compared with [Qeq];
    - [str] is [string], a tuple of tokens is [list string];
    - [Counter] is a [gmap] to [Z] whose lookup of a missing key answers 0
      without inserting; [defaultdict(Counter)] is a [gmap] of Counters whose
      lookup of a missing key INSERTS an empty Counter, so reading it is an
      effect on the engine;
    - a method that may mutate [self] or raise is a computation in the
      state-and-exception monad [M]. *)

From Stdlib Require Import Ascii String ZArith QArith Lia.
From stdpp Require Import gmap strings list fin_maps.

Open Scope Z_scope.

(** ** Python values and exceptions *)

Inductive PyExc : Set :=
| ZeroDivisionError
| IndexError.

Inductive Result (A : Type) : Type :=
| Ok (a : A)
| Raise (e : PyExc).

Arguments Ok {A} a.
Arguments Raise {A} e.

Module Py.

(** [a / b] on two ints: true division, raising on a zero divisor. *)
Definition truediv (a b : Z) : Result Q :=
  if b =? 0 then Raise ZeroDivisionError
  else Ok (inject_Z a / inject_Z b)%Q.

(** [x / b] for a float [x] and an int [b]. *)
Definition fdiv (x : Q) (b : Z) : Result Q :=
  if b =? 0 then Raise ZeroDivisionError
  else Ok (x / inject_Z b)%Q.

(** [max(x, 0)]: the second argument wins only when it is strictly larger. *)
Definition max0 (x : Q) : Q :=
  if Qle_bool 0 x then x else 0%Q.

(** [t[-1]] on a tuple. *)
Definition getitem_last {A} (t : list A) : Result A :=
  match last t with
  | Some x => Ok x
  | None => Raise IndexError
  end.

(** [t[:-1]] and [t[i:]]: slices never raise. *)
Definition slice_but_last {A} (t : list A) : list A :=
  take (length t - 1)%nat t.

Definition slice_from {A} (i : nat) (t : list A) : list A :=
  drop i t.

(** [range(n)] for an int [n]: empty when [n <= 0]. *)
Definition range (n : Z) : list nat :=
  seq 0 (Z.to_nat n).

(** [str.isspace] on the ASCII range: TAB..CR, FS..US and the blank. *)
Definition isspace (c : ascii) : bool :=
  let k := nat_of_ascii c in
  ((9 <=? k)%nat && (k <=? 13)%nat) || ((28 <=? k)%nat && (k <=? 32)%nat).

(** [s.split()]: maximal runs of non-blank characters, in order.  [cur]
    is the token being read. *)
Fixpoint split_from (s cur : string) : list string :=
  match s with
  | EmptyString =>
      match cur with EmptyString => [] | _ => [cur] end
  | String c s' =>
      if isspace c then
        match cur with
        | EmptyString => split_from s' EmptyString
        | _ => cur :: split_from s' EmptyString
        end
      else split_from s' (cur +:+ String c EmptyString)
  end.

Definition split (s : string) : list string :=
  split_from s EmptyString.

(** [zip] applied to the unpacked list [ls]: nothing for no iterable;
    otherwise one tuple per round, made of the next item of every iterable,
    until the first iterable that is exhausted.  The first iterable bounds
    the number of rounds. *)
Fixpoint zip_rounds {A} (rounds : nat) (ls : list (list A)) : list (list A) :=
  match rounds with
  | O => []
  | S r =>
      match mapM head ls with
      | None => []
      | Some row => row :: zip_rounds r (tail <$> ls)
      end
  end.

Definition zip_star {A} (ls : list (list A)) : list (list A) :=
  match ls with
  | [] => []
  | l0 :: _ => zip_rounds (length l0) ls
  end.

End Py.

(** ** [collections.Counter] *)

Module Counter.
Section Counter.
Context {K : Type} `{Countable K}.

(** [c[k]]: [__missing__] answers 0 and stores nothing. *)
Definition get (c : gmap K Z) (k : K) : Z :=
  default 0 (c !! k).

(** [c[k] += 1]. *)
Definition incr (c : gmap K Z) (k : K) : gmap K Z :=
  <[k := get c k + 1]> c.

(** [c.update(iterable)]. *)
Definition update (c : gmap K Z) (ks : list K) : gmap K Z :=
  fold_left incr ks c.

(** [for k in c]: the keys, each once.  Python walks them in insertion
    order; every loop of the engine over a Counter only adds 1 per key to
    another Counter, which does not depend on the order. *)
Definition keys (c : gmap K Z) : list K :=
  (map_to_list c).*1.

End Counter.
End Counter.

(** ** The engine: the attributes of [self] *)

Record Engine : Type := mkEngine {
  n : Z;
  descuento : Q;
  unigramCounts : gmap string Z;
  ngramCounts : gmap Z (gmap (list string) Z);
  cuentasContinuacion : gmap (list string) Z;
  cuentasContexto : gmap (list string) Z;
  totalNgrams : Z;
  totalUnigrams : Z
}.

Definition set_unigramCounts (v : gmap string Z) (self : Engine) : Engine :=
  mkEngine (n self) (descuento self) v (ngramCounts self)
    (cuentasContinuacion self) (cuentasContexto self)
    (totalNgrams self) (totalUnigrams self).

Definition set_ngramCounts (v : gmap Z (gmap (list string) Z)) (self : Engine)
  : Engine :=
  mkEngine (n self) (descuento self) (unigramCounts self) v
    (cuentasContinuacion self) (cuentasContexto self)
    (totalNgrams self) (totalUnigrams self).

Definition set_cuentasContinuacion (v : gmap (list string) Z) (self : Engine)
  : Engine :=
  mkEngine (n self) (descuento self) (unigramCounts self) (ngramCounts self)
    v (cuentasContexto self) (totalNgrams self) (totalUnigrams self).

Definition set_cuentasContexto (v : gmap (list string) Z) (self : Engine)
  : Engine :=
  mkEngine (n self) (descuento self) (unigramCounts self) (ngramCounts self)
    (cuentasContinuacion self) v (totalNgrams self) (totalUnigrams self).

Definition set_totalNgrams (v : Z) (self : Engine) : Engine :=
  mkEngine (n self) (descuento self) (unigramCounts self) (ngramCounts self)
    (cuentasContinuacion self) (cuentasContexto self) v (totalUnigrams self).

Definition set_totalUnigrams (v : Z) (self : Engine) : Engine :=
  mkEngine (n self) (descuento self) (unigramCounts self) (ngramCounts self)
    (cuentasContinuacion self) (cuentasContexto self) (totalNgrams self) v.

(** [self.ngramCounts[k]] on the defaultdict: a missing order is created
    empty and stays in the table. *)
Definition ngramCounts_getitem (k : Z) (self : Engine)
  : Engine * gmap (list string) Z :=
  match ngramCounts self !! k with
  | Some c => (self, c)
  | None => (set_ngramCounts (<[k := ∅]> (ngramCounts self)) self, ∅)
  end.

(** The count [self.ngramCounts[k][g]] as a pure reading. *)
Definition ngram_count (self : Engine) (k : Z) (g : list string) : Z :=
  Counter.get (default ∅ (ngramCounts self !! k)) g.

(** ** The monad of methods: state [self], result or exception *)

Definition M (A : Type) : Type := Engine -> Engine * Result A.

Definition ret {A} (a : A) : M A := fun self => (self, Ok a).

Definition raise {A} (e : PyExc) : M A := fun self => (self, Raise e).

Definition bind {A B} (m : M A) (f : A -> M B) : M B :=
  fun self =>
    match m self with
    | (self', Ok a) => f a self'
    | (self', Raise e) => (self', Raise e)
    end.

Definition lift {A} (r : Result A) : M A := fun self => (self, r).

Definition attr {A} (f : Engine -> A) : M A := fun self => (self, Ok (f self)).

Notation "'let*' x ':=' m 'in' k" := (bind m (fun x => k))
  (at level 10, x name, m at level 100, k at level 200).

(** ** Construction *)

(** Line 73-75: [self.ngramCounts[len(ngram)][ngram] += 1] and
    [self.totalNgrams += 1]. *)
Definition contar_ngram (self : Engine) (ngram : list string) : Engine :=
  let k := Z.of_nat (length ngram) in
  let c := default ∅ (ngramCounts self !! k) in
  let self :=
    set_ngramCounts (<[k := Counter.incr c ngram]> (ngramCounts self)) self in
  set_totalNgrams (totalNgrams self + 1) self.

(** [zip] over the unpacked list [[tokens[i:] for i in range(self.n)]]. *)
Definition ngramas (order : Z) (tokens : list string) : list (list string) :=
  Py.zip_star ((fun i => Py.slice_from i tokens) <$> Py.range order).

(** The body of the loop of [_calcularFrecuencias] for one sentence. *)
Definition contar_oracion (self : Engine) (oracion : string) : Engine :=
  let tokens := Py.split oracion in
  let self :=
    set_totalUnigrams (totalUnigrams self + Z.of_nat (length tokens)) self in
  let self :=
    set_unigramCounts (Counter.update (unigramCounts self) tokens) self in
  fold_left contar_ngram (ngramas (n self) tokens) self.

Definition _calcularFrecuencias (corpus : list string) (self : Engine) : Engine :=
  fold_left contar_oracion corpus self.

Definition _calcularCuentasContinuacion (self : Engine) : Engine :=
  let '(self, c) := ngramCounts_getitem (n self) self in
  set_cuentasContinuacion
    (fold_left (fun acc ngram => Counter.incr acc (Py.slice_from 1 ngram))
       (Counter.keys c) (cuentasContinuacion self)) self.

Definition _calcularCuentasContexto (self : Engine) : Engine :=
  let '(self, c) := ngramCounts_getitem (n self) self in
  set_cuentasContexto
    (fold_left (fun acc ngram => Counter.incr acc (Py.slice_but_last ngram))
       (Counter.keys c) (cuentasContexto self)) self.

(** The attributes as lines 38-45 leave them. *)
Definition atributos_iniciales (order : Z) (D : Q) : Engine :=
  mkEngine order D ∅ ∅ ∅ ∅ 0 0.

(** The body of [__init__], lines 38-52: the engine it leaves in [self]. *)
Definition construir (corpus : list string) (order : Z) (D : Q) : Engine :=
  _calcularCuentasContexto
    (_calcularCuentasContinuacion
       (_calcularFrecuencias corpus (atributos_iniciales order D))).

(** [KneserNeySmoothing(corpus, n, descuento)] as seen by the caller.  No
    statement of [__init__] or of the three helpers it calls can raise on a
    list of strings and an int, and none validates its arguments: the call
    always hands back the engine. *)
Definition __init__ (corpus : list string) (order : Z) (D : Q)
  : Result Engine :=
  Ok (construir corpus order D).

(** ** Queries *)

Definition _probabilidadContinuacion (word : string) : M Q :=
  fun self =>
    (self, Py.truediv (Counter.get (cuentasContinuacion self) [word])
             (totalNgrams self)).

(** Line 142: [self.ngramCounts[len(ngram)][ngram]]. *)
Definition leer_ngramCount (ngram : list string) : M Z :=
  fun self =>
    let '(self', c) := ngramCounts_getitem (Z.of_nat (length ngram)) self in
    (self', Ok (Counter.get c ngram)).

(** Line 148, once [lowerOrderProb] is known. *)
Definition interpolar (ngramCount prefixCount : Z) (lowerOrderProb : Q) : M Q :=
  let* D := attr descuento in
  let* a := lift (Py.fdiv (Py.max0 (inject_Z ngramCount - D)) prefixCount) in
  let* b := lift (Py.fdiv (D * lowerOrderProb) prefixCount) in
  ret (a + b)%Q.

(** Lines 128-148.  The recursive call is on [ngram[1:]], the tail [resto]
    of the tuple; on the empty tuple the test [len(ngram) == 1] fails and
    [ngram[-1]] raises. *)
Fixpoint _probabilidadCondicional (ngram : list string) {struct ngram} : M Q :=
  if (length ngram =? 1)%nat then
    fun self =>
      (self, Py.truediv (Counter.get (unigramCounts self) (hd EmptyString ngram))
               (totalUnigrams self))
  else
    match ngram with
    | [] => raise IndexError
    | _ :: resto =>
        let prefix := Py.slice_but_last ngram in
        let* word := lift (Py.getitem_last ngram) in
        let* prefixCount :=
          attr (fun self => Counter.get (cuentasContexto self) prefix) in
        if prefixCount =? 0 then _probabilidadContinuacion word
        else
          let* ngramCount := leer_ngramCount ngram in
          let* lowerOrderProb := _probabilidadCondicional resto in
          interpolar ngramCount prefixCount lowerOrderProb
    end.

Definition obtenerProbabilidad (ngram : list string) : M Q :=
  _probabilidadCondicional ngram.

(** The loop of lines 186-187 over the windows still to score. *)
Fixpoint multiplicar (ngrams : list (list string)) (prob : Q) : M Q :=
  match ngrams with
  | [] => ret prob
  | ngram :: rest =>
      let* p := obtenerProbabilidad ngram in
      multiplicar rest (prob * p)%Q
  end.

Definition generarProbabilidadOracion (oracion : string) : M Q :=
  fun self =>
    let tokens := Py.split oracion in
    multiplicar (ngramas (n self) tokens) 1%Q self.

(** The demo instance of lines 195-204. *)
Definition corpus : list string :=
  [ "el gato come pescado"; "el perro come carne"; "el gato duerme";
    "el perro ladra"; "el perro come pescado" ]%string.

Definition kneserNey : Engine := construir corpus 2 (3 # 4)%Q.

(** ** The recursion under a bound on its depth

    The same method, where [limite] is the number of nested recursive calls
    still allowed; [None] means the bound was hit before the method returned.
    The recursive call is written as in the source, on [ngram[1:]]. *)
Fixpoint _probabilidadCondicional_limitada (limite : nat) (ngram : list string)
  (self : Engine) {struct limite} : option (Engine * Result Q) :=
  if (length ngram =? 1)%nat then
    Some (self, Py.truediv (Counter.get (unigramCounts self) (hd EmptyString ngram))
                  (totalUnigrams self))
  else
    let prefix := Py.slice_but_last ngram in
    match Py.getitem_last ngram with
    | Raise e => Some (self, Raise e)
    | Ok word =>
        let prefixCount := Counter.get (cuentasContexto self) prefix in
        if prefixCount =? 0 then Some (_probabilidadContinuacion word self)
        else
          match leer_ngramCount ngram self with
          | (self1, Raise e) => Some (self1, Raise e)
          | (self1, Ok ngramCount) =>
              match limite with
              | O => None
              | S limite' =>
                  match _probabilidadCondicional_limitada limite'
                          (Py.slice_from 1 ngram) self1 with
                  | None => None
                  | Some (self2, Raise e) => Some (self2, Raise e)
                  | Some (self2, Ok lowerOrderProb) =>
                      Some (interpolar ngramCount prefixCount lowerOrderProb self2)
                  end
              end
          end
    end.

(** ** Sequences of queries on one engine *)

Inductive Consulta : Type :=
| Probabilidad (ngram : list string)
| ProbabilidadOracion (oracion : string).

Definition consultar (q : Consulta) : M Q :=
  match q with
  | Probabilidad ngram => obtenerProbabilidad ngram
  | ProbabilidadOracion oracion => generarProbabilidadOracion oracion
  end.

(** The caller issues the queries one after the other on the same object;
    a query that raises leaves the object as it was when it raised. *)
Fixpoint ejecutar (qs : list Consulta) (self : Engine)
  : Engine * list (Result Q) :=
  match qs with
  | [] => (self, [])
  | q :: qs' =>
      let '(self1, r) := consultar q self in
      let '(self2, rs) := ejecutar qs' self1 in
      (self2, r :: rs)
  end.

(** ** Notions used by the statements *)

(** Following the spec's words: all contiguous windows of length [k] of a
    token sequence, from left to right; none when the sequence is shorter
    than [k]. *)
Definition ventanas_contiguas (k : nat) (tokens : list string)
  : list (list string) :=
  (fun i => take k (drop i tokens)) <$> seq 0 (length tokens + 1 - k).

(** Following the spec's words: the product of the windows' probabilities,
    seeded at [acc], taken from left to right; the first window whose query
    raises makes the whole product raise. *)
Fixpoint producto (rs : list (Result Q)) (acc : Q) : Result Q :=
  match rs with
  | [] => Ok acc
  | Ok p :: rs' => producto rs' (acc * p)%Q
  | Raise x :: _ => Raise x
  end.

(** The value a query returns, its effect on the engine set aside. *)
Definition probabilidad (self : Engine) (ngram : list string) : Result Q :=
  snd (obtenerProbabilidad ngram self).

(** Two engines that answer every reading alike: they may differ only by
    orders of [ngramCounts] that hold an empty Counter. *)
Definition lecturas_iguales (e1 e2 : Engine) : Prop :=
  n e1 = n e2 /\ descuento e1 = descuento e2 /\
  unigramCounts e1 = unigramCounts e2 /\
  cuentasContinuacion e1 = cuentasContinuacion e2 /\
  cuentasContexto e1 = cuentasContexto e2 /\
  totalNgrams e1 = totalNgrams e2 /\ totalUnigrams e1 = totalUnigrams e2 /\
  forall k g, ngram_count e1 k g = ngram_count e2 k g.

(** What counting leaves true of the n-gram table: a tuple is filed under
    its own length, and a filed tuple means that n-grams and tokens were
    counted. *)
Definition frecuencias_ok (self : Engine) : Prop :=
  0 <= totalNgrams self /\ 0 <= totalUnigrams self /\
  forall k c g, ngramCounts self !! k = Some c -> is_Some (c !! g) ->
    Z.of_nat (length g) = k /\ 0 < totalNgrams self /\ 0 < totalUnigrams self.

(** What construction leaves true of the engine: the configured order is
    present in [ngramCounts], and a context with a count other than 0 is
    the prefix of a tuple filed under the configured order. *)
Definition entrenado (self : Engine) : Prop :=
  frecuencias_ok self /\
  is_Some (ngramCounts self !! n self) /\
  forall prefix, Counter.get (cuentasContexto self) prefix <> 0 ->
    exists c g, ngramCounts self !! n self = Some c /\ is_Some (c !! g) /\
                Py.slice_but_last g = prefix.

(** ** Notions for the counting tables *)

(** The number of occurrences of [x] in [l]. *)
Definition ocurrencias {A} `{EqDecision A} (x : A) (l : list A) : Z :=
  Z.of_nat (length (filter (fun y => y = x) l)).

(** All tokens of the corpus, sentence after sentence. *)
Definition tokens_del_corpus (corpus : list string) : list string :=
  corpus ≫= Py.split.

(** All windows the counting loop of [_calcularFrecuencias] visits, in the
    order it visits them. *)
Definition ngramas_del_corpus (order : Z) (corpus : list string)
  : list (list string) :=
  corpus ≫= (fun oracion => ngramas order (Py.split oracion)).

(** The distinct n-grams of the corpus. *)
Definition tipos_del_corpus (order : Z) (corpus : list string)
  : list (list string) :=
  remove_dups (ngramas_del_corpus order corpus).

(** [sum(c.values())] of a Counter. *)
Definition suma_cuentas {K} `{Countable K} (c : gmap K Z) : Z :=
  map_fold (fun _ v acc => v + acc) 0 c.

(** The n-gram table after the windows [vistos] were counted: a tuple is
    filed under its length with the number of times it was visited. *)
Definition tabla_de (d : gmap Z (gmap (list string) Z))
  (vistos : list (list string)) : Prop :=
  forall k g,
    default ∅ (d !! k) !! g
    = if decide (Z.of_nat (length g) = k /\ g ∈ vistos)
      then Some (ocurrencias g vistos) else None.

(** * The backoff variant of [ejemplo.py]

    The class [KneserNeyLM]: an object created empty by [__init__] and
    filled by [train], which may be called more than once.  Sentences are
    lists of words; [ngram_counts] is a [defaultdict(Counter)] keyed by
    context, [context_counts] a [defaultdict(int)], [vocab] a set. *)

Module KneserNeyLM.

Record LM : Type := mkLM {
  n : Z;
  discount : Q;
  ngram_counts : gmap (list string) (gmap string Z);
  context_counts : gmap (list string) Z;
  vocab : gset string
}.

(** [KneserNeyLM(n, discount)], lines 11-15. *)
Definition __init__ (order : Z) (D : Q) : LM := mkLM order D ∅ ∅ ∅.

(** An index of a slice, brought into [0, len]: a negative index counts
    from the end. *)
Definition clamp (len i : Z) : Z :=
  if i <? 0 then Z.max (i + len) 0 else Z.min i len.

(** [t[start:stop]]: never raises; empty when [stop] does not exceed
    [start] once both are brought into range. *)
Definition slice {A} (t : list A) (start stop : Z) : list A :=
  let len := Z.of_nat (length t) in
  let s := clamp len start in
  let e := clamp len stop in
  take (Z.to_nat (e - s)) (drop (Z.to_nat s) t).

(** A [for] loop whose body may raise: the first exception ends the loop
    and leaves the object as the body left it. *)
Fixpoint para_cada {S A} (cuerpo : A -> S -> S * Result unit) (l : list A)
  (s : S) : S * Result unit :=
  match l with
  | [] => (s, Ok tt)
  | x :: l' =>
      match cuerpo x s with
      | (s', Ok _) => para_cada cuerpo l' s'
      | (s', Raise e) => (s', Raise e)
      end
  end.

(** Lines 26-31, the body of the inner loop of [train] at position [i]. *)
Definition contar (tokens : list string) (i : nat) (self : LM)
  : LM * Result unit :=
  let ngram := slice tokens (Z.of_nat i) (Z.of_nat i + n self) in
  let context := Py.slice_but_last ngram in
  match Py.getitem_last ngram with
  | Raise e => (self, Raise e)
  | Ok word =>
      let c := default ∅ (ngram_counts self !! context) in
      (mkLM (n self) (discount self)
         (<[context := Counter.incr c word]> (ngram_counts self))
         (Counter.incr (context_counts self) context)
         ({[word]} ∪ vocab self),
       Ok tt)
  end.

(** Lines 24-31, the body of the outer loop of [train]. *)
Definition entrenar_oracion (sentence : list string) (self : LM)
  : LM * Result unit :=
  let tokens :=
    replicate (Z.to_nat (n self - 1)) "<s>"%string
    ++ sentence ++ ["</s>"%string] in
  para_cada (contar tokens)
    (Py.range (Z.of_nat (length tokens) - n self + 1)) self.

Definition train (corpus : list (list string)) (self : LM)
  : LM * Result unit :=
  para_cada entrenar_oracion corpus self.

(** [self.ngram_counts[context]] on the defaultdict: a missing context is
    created with an empty Counter. *)
Definition leer_contador (context : list string) (self : LM)
  : LM * gmap string Z :=
  match ngram_counts self !! context with
  | Some c => (self, c)
  | None =>
      (mkLM (n self) (discount self)
         (<[context := ∅]> (ngram_counts self))
         (context_counts self) (vocab self),
       ∅)
  end.

(** Lines 66-69. *)
Definition get_context_prob (context : list string) (word : string)
  (self : LM) : LM * Result Q :=
  match context_counts self !! context with
  | Some total =>
      let '(self, c) := leer_contador context self in
      (self, Py.truediv (Counter.get c word) total)
  | None => (self, Py.truediv 1 (Z.of_nat (size (vocab self))))
  end.

(** Lines 40-56.  [prob] is the discounted term of lines 48-53, [peso] the
    factor [discount * len(ngram_counts[context]) / context_counts[context]]
    of line 56, evaluated before [get_context_prob] is called. *)
Definition get_ngram_prob (ngram : list string) (self : LM)
  : LM * Result Q :=
  let context := Py.slice_but_last ngram in
  match Py.getitem_last ngram with
  | Raise e => (self, Raise e)
  | Ok word =>
      match context_counts self !! context with
      | None => (self, Py.truediv 1 (Z.of_nat (size (vocab self))))
      | Some total =>
          let '(self, c) := leer_contador context self in
          let count := Counter.get c word in
          match (if 0 <? count
                 then Py.fdiv (inject_Z count - discount self) total
                 else Ok 0%Q) with
          | Raise e => (self, Raise e)
          | Ok prob =>
              match Py.fdiv (discount self * inject_Z (Z.of_nat (size c)))
                      total with
              | Raise e => (self, Raise e)
              | Ok peso =>
                  match get_context_prob context word self with
                  | (self', Raise e) => (self', Raise e)
                  | (self', Ok contexto) =>
                      (self', Ok (prob + peso * contexto)%Q)
                  end
              end
          end
      end
  end.

(** The corpus of [main], lines 73-76. *)
Definition corpus : list (list string) :=
  [ ["this"; "is"; "a"; "test"]; ["this"; "is"; "another"; "test"] ]%string.

(** The model of [main], lines 79-82. *)
Definition model : LM := (train corpus (__init__ 2 (3 # 4))).1.

(** What training keeps true: a context is counted in both tables or in
    neither, its count is at least 1 and is the sum of the counts of its
    words, and every counted word has a count of at least 1 and belongs to
    the vocabulary. *)
Definition coherente (self : LM) : Prop :=
  (forall context, context_counts self !! context = None ->
     ngram_counts self !! context = None)
  /\ (forall context total, context_counts self !! context = Some total ->
        exists c, ngram_counts self !! context = Some c
                  /\ suma_cuentas c = total /\ 1 <= total)
  /\ (forall context c word v,
        ngram_counts self !! context = Some c -> c !! word = Some v ->
        1 <= v /\ word ∈ vocab self).

(** The padded sentence of line 24 and, following the source's comments,
    the n-grams [train] visits: every window of [order] consecutive tokens
    of every padded sentence. *)
Definition relleno (order : Z) (sentence : list string) : list string :=
  replicate (Z.to_nat (order - 1)) "<s>"%string ++ sentence ++ ["</s>"%string].

Definition ventanas_de_entrenamiento (order : Z) (corpus : list (list string))
  : list (list string) :=
  corpus ≫= (fun sentence =>
               ventanas_contiguas (Z.to_nat order) (relleno order sentence)).

(** The two tables after the n-grams [vistos] were counted. *)
Definition tabla_de_entrenamiento (self : LM) (vistos : list (list string))
  : Prop :=
  (forall context word,
     Counter.get (default ∅ (ngram_counts self !! context)) word
     = ocurrencias (context ++ [word]) vistos)
  /\ (forall context,
        Counter.get (context_counts self) context
        = Z.of_nat (length (filter (fun g => Py.slice_but_last g = context)
                              vistos))).

End KneserNeyLM.

(** ** The source's own sample outputs (lines 220-232) *)

Example split_blanks :
  Py.split "  el gato  come pescado " = ["el"; "gato"; "come"; "pescado"]%string.
Proof. reflexivity. Qed.

Example bigramas_oracion :
  ngramas 2 (Py.split "el gato come pescado")
  = [["el"; "gato"]; ["gato"; "come"]; ["come"; "pescado"]]%string.
Proof. reflexivity. Qed.

Example totales_demo : totalUnigrams kneserNey = 18 /\ totalNgrams kneserNey = 13.
Proof. vm_compute. auto. Qed.

Example P_come_gato :
  exists p, snd (obtenerProbabilidad ["gato"; "come"]%string kneserNey) = Ok p
            /\ (p == 1875 # 10000)%Q.
Proof. eexists. split; [vm_compute; reflexivity | reflexivity]. Qed.

Example P_pescado_perro :
  exists p, snd (obtenerProbabilidad ["perro"; "pescado"]%string kneserNey) = Ok p
            /\ (p == 1 # 24)%Q.
Proof. eexists. split; [vm_compute; reflexivity | reflexivity]. Qed.

Example P_carne_come :
  exists p, snd (obtenerProbabilidad ["come"; "carne"]%string kneserNey) = Ok p
            /\ (p == 7 # 48)%Q.
Proof. eexists. split; [vm_compute; reflexivity | reflexivity]. Qed.

Example oracion_el_perro_come_carne :
  exists p, snd (generarProbabilidadOracion "el perro come carne" kneserNey) = Ok p
            /\ (p == (19 # 16) * (11 # 16) * (7 # 48))%Q.
Proof. eexists. split; [vm_compute; reflexivity | reflexivity]. Qed.

(** The two values [main] of [ejemplo.py] prints: 1.0 and 0.5. *)
Example main_this_is :
  exists p, (KneserNeyLM.get_ngram_prob ["this"; "is"]%string KneserNeyLM.model).2
            = Ok p /\ (p == 1)%Q.
Proof. eexists. split; [vm_compute; reflexivity | reflexivity]. Qed.

Example main_is_a :
  exists p, (KneserNeyLM.get_ngram_prob ["is"; "a"]%string KneserNeyLM.model).2
            = Ok p /\ (p == 1 # 2)%Q.
Proof. eexists. split; [vm_compute; reflexivity | reflexivity]. Qed.

(** ** Counters *)

Section CounterFacts.
Context {K : Type} `{Countable K}.
Implicit Types (c : gmap K Z) (k : K).

Lemma get_empty k : Counter.get (∅ : gmap K Z) k = 0.
Proof. unfold Counter.get. by rewrite lookup_empty. Qed.

Lemma get_incr_eq c k : Counter.get (Counter.incr c k) k = Counter.get c k + 1.
Proof. unfold Counter.incr, Counter.get at 1. by rewrite lookup_insert_eq. Qed.

Lemma get_incr_ne c k k' :
  k <> k' -> Counter.get (Counter.incr c k) k' = Counter.get c k'.
Proof.
  intros Hne. unfold Counter.incr, Counter.get at 1.
  by rewrite lookup_insert_ne.
Qed.

Lemma elem_of_keys c k : k ∈ Counter.keys c <-> is_Some (c !! k).
Proof.
  unfold Counter.keys. rewrite list_elem_of_fmap. split.
  - intros [[k' v] [-> Hin]]. apply elem_of_map_to_list in Hin. by exists v.
  - intros [v Hv]. exists (k, v). split; [done|]. by apply elem_of_map_to_list.
Qed.

Lemma is_Some_incr c k k' :
  is_Some (Counter.incr c k !! k') <-> k = k' \/ is_Some (c !! k').
Proof.
  unfold Counter.incr. rewrite lookup_insert_is_Some. split.
  - intros [->|[_ Hs]]; auto.
  - intros [->|Hs]; [by left|].
    destruct (decide (k = k')) as [->|Hne]; [by left | by right].
Qed.

(** A loop that adds 1 at [f g] for each [g] of a list leaves a count
    different from 0 only where it already was or where some [g] points. *)
Lemma get_fold_incr_origin {G} (f : G -> K) (gs : list G) c k :
  Counter.get (fold_left (fun acc g => Counter.incr acc (f g)) gs c) k <> 0 ->
  Counter.get c k <> 0 \/ exists g, g ∈ gs /\ f g = k.
Proof.
  revert c. induction gs as [|g gs IH]; intros c Hne; simpl in *; [by left|].
  destruct (IH _ Hne) as [Hc | [g' [Hin Hg']]].
  - destruct (decide (f g = k)) as [Heq|Hneq].
    + right. exists g. split; [apply list_elem_of_here | done].
    + left. by rewrite get_incr_ne in Hc.
  - right. exists g'. split; [by apply list_elem_of_further | done].
Qed.

(** Adding 1 per key commutes, so the order a Counter is walked in does
    not show in the Counter that the walk builds. *)
Lemma incr_comm c k k' :
  Counter.incr (Counter.incr c k) k' = Counter.incr (Counter.incr c k') k.
Proof.
  destruct (decide (k = k')) as [->|Hne]; [done|].
  unfold Counter.incr at 1 3.
  rewrite (get_incr_ne c k k') by done.
  rewrite (get_incr_ne c k' k) by done.
  unfold Counter.incr. by apply insert_insert_ne.
Qed.

Lemma fold_incr_Permutation {G} (f : G -> K) (gs gs' : list G) c :
  gs ≡ₚ gs' ->
  fold_left (fun acc g => Counter.incr acc (f g)) gs c
  = fold_left (fun acc g => Counter.incr acc (f g)) gs' c.
Proof.
  intros Hp. revert c.
  induction Hp as [|g gs gs' _ IH|g g' gs|gs gs' gs'' _ IH1 _ IH2];
    intros c; simpl.
  - done.
  - apply IH.
  - by rewrite incr_comm.
  - by rewrite IH1.
Qed.

End CounterFacts.

(** ** Readings of the engine *)

Section Lecturas.
Implicit Types (e self : Engine) (g ngram : list string).

Lemma lecturas_iguales_refl e : lecturas_iguales e e.
Proof. by repeat split. Qed.

Lemma lecturas_iguales_sym e1 e2 :
  lecturas_iguales e1 e2 -> lecturas_iguales e2 e1.
Proof. intros (?&?&?&?&?&?&?&Hc). by repeat split. Qed.

Lemma lecturas_iguales_trans e1 e2 e3 :
  lecturas_iguales e1 e2 -> lecturas_iguales e2 e3 -> lecturas_iguales e1 e3.
Proof.
  intros (?&?&?&?&?&?&?&Hc) (?&?&?&?&?&?&?&Hc').
  repeat split; try congruence. all: intros k g; by rewrite Hc.
Qed.

(** Reading the defaultdict may add an empty order; no reading sees it. *)
Lemma ngramCounts_getitem_lecturas k e :
  lecturas_iguales (ngramCounts_getitem k e).1 e
  /\ (ngramCounts_getitem k e).2 = default ∅ (ngramCounts e !! k).
Proof.
  unfold ngramCounts_getitem.
  destruct (ngramCounts e !! k) as [c|] eqn:Hk; simpl.
  - split; [apply lecturas_iguales_refl | done].
  - split; [|done]. repeat split; try done.
    intros k' g. unfold ngram_count. simpl.
    destruct (decide (k = k')) as [<-|Hne].
    + by rewrite lookup_insert_eq, Hk.
    + by rewrite lookup_insert_ne.
Qed.

Lemma ngramCounts_getitem_present k e c :
  ngramCounts e !! k = Some c -> ngramCounts_getitem k e = (e, c).
Proof. intros Hk. unfold ngramCounts_getitem. by rewrite Hk. Qed.

Lemma leer_ngramCount_lecturas g e :
  lecturas_iguales (leer_ngramCount g e).1 e
  /\ (leer_ngramCount g e).2 = Ok (ngram_count e (Z.of_nat (length g)) g).
Proof.
  unfold leer_ngramCount.
  destruct (ngramCounts_getitem_lecturas (Z.of_nat (length g)) e) as [HR Hc].
  destruct (ngramCounts_getitem _ e) as [e' c]. simpl in *.
  split; [done|]. by rewrite Hc.
Qed.

Lemma interpolar_ok c pc lower e :
  pc <> 0 ->
  interpolar c pc lower e
  = (e, Ok (Py.max0 (inject_Z c - descuento e) / inject_Z pc
            + descuento e * lower / inject_Z pc)%Q).
Proof.
  intros Hpc. unfold interpolar, bind, attr, lift, ret, Py.fdiv.
  destruct (Z.eqb_spec pc 0) as [?|_]; [done|]. reflexivity.
Qed.

(** The method on a tuple of two tokens or more, one step unfolded. *)
Lemma _probabilidadCondicional_paso w resto e :
  resto <> [] ->
  _probabilidadCondicional (w :: resto) e
  = let ngram := w :: resto in
    let prefixCount := Counter.get (cuentasContexto e) (Py.slice_but_last ngram) in
    if prefixCount =? 0 then
      (e, Py.truediv (Counter.get (cuentasContinuacion e)
                        [default w (last resto)]) (totalNgrams e))
    else
      let e1 := (leer_ngramCount ngram e).1 in
      match _probabilidadCondicional resto e1 with
      | (e2, Ok lower) =>
          (e2, Ok (Py.max0 (inject_Z (ngram_count e (Z.of_nat (length ngram)) ngram)
                            - descuento e2) / inject_Z prefixCount
                   + descuento e2 * lower / inject_Z prefixCount)%Q)
      | (e2, Raise x) => (e2, Raise x)
      end.
Proof.
  intros Hresto. destruct resto as [|w' rest]; [done|].
  cbv zeta.
  change (_probabilidadCondicional (w :: w' :: rest) e)
    with ((let* word := lift (Py.getitem_last (w :: w' :: rest)) in
           let* prefixCount :=
             attr (fun self => Counter.get (cuentasContexto self)
                                 (Py.slice_but_last (w :: w' :: rest))) in
           if prefixCount =? 0 then _probabilidadContinuacion word
           else
             let* ngramCount := leer_ngramCount (w :: w' :: rest) in
             let* lowerOrderProb := _probabilidadCondicional (w' :: rest) in
             interpolar ngramCount prefixCount lowerOrderProb) e).
  assert (Hlast : Py.getitem_last (w :: w' :: rest)
                  = Ok (default w (last (w' :: rest)))).
  { unfold Py.getitem_last. rewrite last_cons.
    by destruct (last (w' :: rest)). }
  unfold bind at 1, lift at 1. rewrite Hlast.
  unfold bind at 1, attr at 1.
  destruct (Z.eqb_spec (Counter.get (cuentasContexto e)
              (Py.slice_but_last (w :: w' :: rest))) 0) as [Hz|Hnz].
  - reflexivity.
  - unfold bind at 1.
    destruct (leer_ngramCount_lecturas (w :: w' :: rest) e) as [HR Hv].
    destruct (leer_ngramCount (w :: w' :: rest) e) as [e1 r1]. simpl in HR, Hv.
    subst r1. simpl fst. unfold bind at 1.
    destruct (_probabilidadCondicional (w' :: rest) e1) as [e2 [lower|x]];
      [|done].
    by rewrite interpolar_ok.
Qed.

End Lecturas.

(** ** What construction establishes *)

Section Construccion.
Implicit Types (self : Engine) (g ngram : list string).

Lemma fold_left_preserva {A B C} (f : A -> B -> A) (proj : A -> C) :
  (forall a b, proj (f a b) = proj a) ->
  forall l a, proj (fold_left f l a) = proj a.
Proof.
  intros Hf l. induction l as [|b l IH]; intros a; simpl; [done|].
  by rewrite IH, Hf.
Qed.

Lemma fold_left_invariante {A B} (f : A -> B -> A) (P : A -> Prop) :
  (forall a b, P a -> P (f a b)) ->
  forall l a, P a -> P (fold_left f l a).
Proof.
  intros Hf l. induction l as [|b l IH]; intros a Ha; simpl; [done|].
  apply IH, Hf, Ha.
Qed.

(** No window comes out of a sentence without tokens, whatever the order. *)
Lemma ngramas_nil order : ngramas order [] = [].
Proof.
  unfold ngramas, Py.range. destruct (Z.to_nat order) as [|m]; reflexivity.
Qed.

Lemma frecuencias_ok_inicial order D :
  frecuencias_ok (atributos_iniciales order D).
Proof.
  split; [simpl; lia|]. split; [simpl; lia|].
  intros k c g Hc _. simpl in Hc. by rewrite lookup_empty in Hc.
Qed.

Lemma contar_ngram_ok self ngram :
  frecuencias_ok self /\ 0 < totalUnigrams self ->
  frecuencias_ok (contar_ngram self ngram)
  /\ 0 < totalUnigrams (contar_ngram self ngram).
Proof.
  intros [(Hn & Hu & Hk) Hpos]. unfold contar_ngram. simpl.
  split; [|done]. split; [simpl; lia|]. split; [simpl; lia|].
  intros k c' g Hc' Hg. simpl in *.
  destruct (decide (Z.of_nat (length ngram) = k)) as [Heq|Hne].
  - subst k. rewrite lookup_insert_eq in Hc'. injection Hc' as <-.
    split; [|lia].
    apply is_Some_incr in Hg as [->|Hs]; [done|].
    destruct (ngramCounts self !! Z.of_nat (length ngram)) as [c|] eqn:Hc;
      simpl in Hs; [by destruct (Hk _ _ _ Hc Hs) as (?&?&?)|].
    rewrite lookup_empty in Hs. by destruct Hs.
  - rewrite lookup_insert_ne in Hc' by done.
    destruct (Hk _ _ _ Hc' Hg) as (?&?&?). split; [done|lia].
Qed.

Lemma contar_oracion_ok self oracion :
  frecuencias_ok self -> frecuencias_ok (contar_oracion self oracion).
Proof.
  intros (Hn & Hu & Hk). unfold contar_oracion. cbv zeta.
  destruct (Py.split oracion) as [|t ts] eqn:Htok.
  - rewrite ngramas_nil. simpl.
    split; [simpl; lia|]. split; [simpl; lia|].
    intros k c g Hc Hg. simpl in *.
    destruct (Hk _ _ _ Hc Hg) as (?&?&?). split; [done|lia].
  - apply (fold_left_invariante contar_ngram
             (fun s => frecuencias_ok s /\ 0 < totalUnigrams s)).
    + intros a b. apply contar_ngram_ok.
    + split; [|simpl; lia].
      split; [simpl; lia|]. split; [simpl; lia|].
      intros k c g Hc Hg. simpl in *.
      destruct (Hk _ _ _ Hc Hg) as (?&?&?). split; [done|lia].
Qed.

Lemma _calcularFrecuencias_ok corpus0 self :
  frecuencias_ok self -> frecuencias_ok (_calcularFrecuencias corpus0 self).
Proof.
  apply (fold_left_invariante contar_oracion frecuencias_ok).
  intros a b. apply contar_oracion_ok.
Qed.

(** Counting touches neither the configuration nor the derived tables. *)
Lemma contar_oracion_marco self oracion :
  n (contar_oracion self oracion) = n self
  /\ descuento (contar_oracion self oracion) = descuento self
  /\ cuentasContexto (contar_oracion self oracion) = cuentasContexto self
  /\ cuentasContinuacion (contar_oracion self oracion) = cuentasContinuacion self.
Proof.
  unfold contar_oracion. cbv zeta.
  set (s0 := set_unigramCounts _ _).
  change (n self) with (n s0). change (descuento self) with (descuento s0).
  change (cuentasContexto self) with (cuentasContexto s0).
  change (cuentasContinuacion self) with (cuentasContinuacion s0).
  generalize (ngramas (n s0) (Py.split oracion)). intros l.
  repeat split; by apply fold_left_preserva.
Qed.

Lemma _calcularFrecuencias_marco corpus0 self :
  n (_calcularFrecuencias corpus0 self) = n self
  /\ descuento (_calcularFrecuencias corpus0 self) = descuento self
  /\ cuentasContexto (_calcularFrecuencias corpus0 self) = cuentasContexto self
  /\ cuentasContinuacion (_calcularFrecuencias corpus0 self)
     = cuentasContinuacion self.
Proof.
  unfold _calcularFrecuencias.
  repeat split; apply fold_left_preserva; intros a b; apply contar_oracion_marco.
Qed.

Lemma ngramCounts_getitem_ok k self :
  frecuencias_ok self ->
  frecuencias_ok (ngramCounts_getitem k self).1
  /\ ngramCounts (ngramCounts_getitem k self).1 !! k
     = Some (ngramCounts_getitem k self).2.
Proof.
  intros (Hn & Hu & Hk). unfold ngramCounts_getitem.
  destruct (ngramCounts self !! k) as [c|] eqn:Hc; simpl; [done|].
  split; [|by rewrite lookup_insert_eq].
  split; [simpl; lia|]. split; [simpl; lia|].
  intros k' c' g Hc' Hg. simpl in *.
  destruct (decide (k = k')) as [<-|Hne].
  - rewrite lookup_insert_eq in Hc'. injection Hc' as <-.
    rewrite lookup_empty in Hg. by destruct Hg.
  - rewrite lookup_insert_ne in Hc' by done. by apply (Hk _ _ _ Hc' Hg).
Qed.

(** [frecuencias_ok] reads the n-gram table and the two totals only. *)
Lemma frecuencias_ok_campos s s' :
  ngramCounts s' = ngramCounts s -> totalNgrams s' = totalNgrams s ->
  totalUnigrams s' = totalUnigrams s ->
  frecuencias_ok s -> frecuencias_ok s'.
Proof. unfold frecuencias_ok. by intros -> -> ->. Qed.

Lemma _calcularCuentasContinuacion_ok self :
  frecuencias_ok self ->
  frecuencias_ok (_calcularCuentasContinuacion self)
  /\ n (_calcularCuentasContinuacion self) = n self
  /\ descuento (_calcularCuentasContinuacion self) = descuento self
  /\ cuentasContexto (_calcularCuentasContinuacion self) = cuentasContexto self.
Proof.
  intros Hok. unfold _calcularCuentasContinuacion.
  destruct (ngramCounts_getitem_ok (n self) self Hok) as [Hok' _].
  destruct (ngramCounts_getitem_lecturas (n self) self)
    as [(Hn&HD&_&_&Hctx&_) _].
  destruct (ngramCounts_getitem (n self) self) as [s c]. simpl in *.
  split; [by apply (frecuencias_ok_campos s)|]. by simpl.
Qed.

Lemma _calcularCuentasContexto_entrenado self :
  frecuencias_ok self -> cuentasContexto self = ∅ ->
  entrenado (_calcularCuentasContexto self).
Proof.
  intros Hok Hvacio. unfold _calcularCuentasContexto.
  destruct (ngramCounts_getitem_ok (n self) self Hok) as [Hok' Hpres].
  destruct (ngramCounts_getitem_lecturas (n self) self)
    as [(Hn&_&_&_&Hctx&_) _].
  destruct (ngramCounts_getitem (n self) self) as [s c]. simpl in *.
  split; [|split].
  - by apply (frecuencias_ok_campos s).
  - simpl. rewrite Hn, Hpres. by eexists.
  - intros prefix Hne. simpl in *.
    apply get_fold_incr_origin in Hne as [Hne | (g & Hin & Hg)].
    + rewrite Hctx, Hvacio, get_empty in Hne. done.
    + exists c, g. rewrite Hn, Hpres.
      split; [done|]. split; [by apply elem_of_keys | done].
Qed.

(** Every engine that construction hands back is trained. *)
Lemma construir_entrenado corpus0 order D :
  entrenado (construir corpus0 order D).
Proof.
  unfold construir.
  set (s0 := atributos_iniciales order D).
  pose proof (_calcularFrecuencias_ok corpus0 s0
                (frecuencias_ok_inicial order D)) as H1.
  destruct (_calcularFrecuencias_marco corpus0 s0) as (_ & _ & Hc1 & _).
  destruct (_calcularCuentasContinuacion_ok _ H1) as (H2 & _ & _ & Hc2).
  apply _calcularCuentasContexto_entrenado; [done|].
  by rewrite Hc2, Hc1.
Qed.

Lemma construir_config corpus0 order D :
  n (construir corpus0 order D) = order
  /\ descuento (construir corpus0 order D) = D.
Proof.
  unfold construir.
  set (s0 := atributos_iniciales order D).
  destruct (_calcularFrecuencias_marco corpus0 s0) as (Hn1 & HD1 & _).
  pose proof (_calcularFrecuencias_ok corpus0 s0
                (frecuencias_ok_inicial order D)) as H1.
  destruct (_calcularCuentasContinuacion_ok _ H1) as (_ & Hn2 & HD2 & _).
  set (s2 := _calcularCuentasContinuacion _) in *.
  unfold _calcularCuentasContexto.
  destruct (ngramCounts_getitem_lecturas (n s2) s2) as [(Hn&HD&_) _].
  destruct (ngramCounts_getitem (n s2) s2) as [s c]. simpl in *.
  split; congruence.
Qed.

(** On a trained engine a context with a count other than 0 fixes the
    length of the tuples it prefixes, and tells that the corpus had
    n-grams and tokens. *)
Lemma entrenado_contexto self ngram :
  entrenado self -> (2 <= length ngram)%nat ->
  Counter.get (cuentasContexto self) (Py.slice_but_last ngram) <> 0 ->
  Z.of_nat (length ngram) = n self
  /\ 0 < totalNgrams self /\ 0 < totalUnigrams self.
Proof.
  intros ((_ & _ & Hk) & _ & Hctx) Hlen Hne.
  destruct (Hctx _ Hne) as (c & g & Hc & Hg & Hpre).
  destruct (Hk _ _ _ Hc Hg) as (Hlg & Hn & Hu).
  split; [|done]. rewrite <- Hlg. f_equal.
  apply (f_equal length) in Hpre. unfold Py.slice_but_last in Hpre.
  rewrite !length_take in Hpre. lia.
Qed.

End Construccion.

(** ** The value of a query *)

Section Valores.
Implicit Types (e self : Engine) (g ngram : list string).

(** A query leaves an engine that answers every reading as before. *)
Lemma _probabilidadCondicional_estado ngram :
  forall e, lecturas_iguales (_probabilidadCondicional ngram e).1 e.
Proof.
  induction ngram as [|w resto IH]; intros e.
  - apply lecturas_iguales_refl.
  - destruct resto as [|w' rest]; [apply lecturas_iguales_refl|].
    rewrite _probabilidadCondicional_paso by done. cbv zeta.
    destruct (_ =? 0); [apply lecturas_iguales_refl|].
    destruct (leer_ngramCount_lecturas (w :: w' :: rest) e) as [HR _].
    specialize (IH (leer_ngramCount (w :: w' :: rest) e).1).
    destruct (_probabilidadCondicional (w' :: rest) _) as [e2 [lower|x]];
      simpl in *; by apply (lecturas_iguales_trans _ _ _ IH).
Qed.

(** Engines that answer every reading alike answer every query alike. *)
Lemma _probabilidadCondicional_valor ngram :
  forall e e', lecturas_iguales e e' ->
    (_probabilidadCondicional ngram e).2 = (_probabilidadCondicional ngram e').2.
Proof.
  induction ngram as [|w resto IH]; intros e e' HR; [done|].
  destruct resto as [|w' rest].
  - destruct HR as (_&_&Hu&_&_&_&Ht&_).
    change ((_probabilidadCondicional [w] e).2)
      with (Py.truediv (Counter.get (unigramCounts e) w) (totalUnigrams e)).
    change ((_probabilidadCondicional [w] e').2)
      with (Py.truediv (Counter.get (unigramCounts e') w) (totalUnigrams e')).
    by rewrite Hu, Ht.
  - rewrite !_probabilidadCondicional_paso by done. cbv zeta.
    pose proof HR as (_&_&_&Hcont&Hctx&Htn&_&Hcount).
    rewrite Hctx, Hcont, Htn, Hcount.
    destruct (_ =? 0); [done|].
    destruct (leer_ngramCount_lecturas (w :: w' :: rest) e) as [HR1 _].
    destruct (leer_ngramCount_lecturas (w :: w' :: rest) e') as [HR1' _].
    set (e1 := (leer_ngramCount (w :: w' :: rest) e).1) in *.
    set (e1' := (leer_ngramCount (w :: w' :: rest) e').1) in *.
    assert (HR11 : lecturas_iguales e1 e1').
    { apply (lecturas_iguales_trans _ e); [done|].
      apply (lecturas_iguales_trans _ e'); [done|].
      by apply lecturas_iguales_sym. }
    pose proof (IH e1 e1' HR11) as Hval.
    pose proof (_probabilidadCondicional_estado (w' :: rest) e1) as H2.
    pose proof (_probabilidadCondicional_estado (w' :: rest) e1') as H2'.
    destruct (_probabilidadCondicional (w' :: rest) e1) as [e2 r].
    destruct (_probabilidadCondicional (w' :: rest) e1') as [e2' r'].
    simpl in *. subst r'.
    assert (HD : descuento e2 = descuento e2').
    { destruct H2 as (_&->&_), H2' as (_&->&_).
      by destruct HR11 as (_&->&_). }
    destruct r; simpl; [by rewrite HD | done].
Qed.

Lemma probabilidad_vacia self : probabilidad self [] = Raise IndexError.
Proof. reflexivity. Qed.

Lemma probabilidad_unigrama self w :
  probabilidad self [w]
  = Py.truediv (Counter.get (unigramCounts self) w) (totalUnigrams self).
Proof. reflexivity. Qed.

(** The method on two tokens or more, as a reading of one engine. *)
Lemma probabilidad_superior self ngram word :
  (2 <= length ngram)%nat -> last ngram = Some word ->
  probabilidad self ngram
  = let prefixCount :=
      Counter.get (cuentasContexto self) (Py.slice_but_last ngram) in
    if prefixCount =? 0 then
      Py.truediv (Counter.get (cuentasContinuacion self) [word])
        (totalNgrams self)
    else
      match probabilidad self (Py.slice_from 1 ngram) with
      | Ok lowerOrderProb =>
          Ok (Py.max0 (inject_Z (ngram_count self (Z.of_nat (length ngram)) ngram)
                       - descuento self) / inject_Z prefixCount
              + descuento self * lowerOrderProb / inject_Z prefixCount)%Q
      | Raise x => Raise x
      end.
Proof.
  intros Hlen Hlast. destruct ngram as [|w [|w' rest]]; simpl in Hlen; try lia.
  unfold probabilidad, obtenerProbabilidad.
  rewrite _probabilidadCondicional_paso by done. cbv zeta.
  assert (Hw : default w (last (w' :: rest)) = word).
  { rewrite last_cons in Hlast. destruct (last (w' :: rest)); simpl; congruence. }
  rewrite Hw. destruct (_ =? 0); [done|].
  destruct (leer_ngramCount_lecturas (w :: w' :: rest) self) as [HR1 _].
  set (e1 := (leer_ngramCount (w :: w' :: rest) self).1) in *.
  change (Py.slice_from 1 (w :: w' :: rest)) with (w' :: rest).
  rewrite <- (_probabilidadCondicional_valor (w' :: rest) e1 self HR1).
  pose proof (_probabilidadCondicional_estado (w' :: rest) e1) as H2.
  destruct (_probabilidadCondicional (w' :: rest) e1) as [e2 r]. simpl in *.
  assert (HD : descuento e2 = descuento self).
  { destruct H2 as (_&->&_). by destruct HR1 as (_&->&_). }
  destruct r; simpl; [by rewrite HD | done].
Qed.

Lemma truediv_ok a b :
  b <> 0 -> Py.truediv a b = Ok (inject_Z a / inject_Z b)%Q.
Proof. intros Hb. unfold Py.truediv. by destruct (Z.eqb_spec b 0). Qed.

Lemma truediv_cero a : Py.truediv a 0 = Raise ZeroDivisionError.
Proof. reflexivity. Qed.

Lemma last_is_Some {A} (l : list A) : l <> [] -> is_Some (last l).
Proof.
  intros Hl. destruct (last l) eqn:E; [by eexists|].
  by apply last_None in E.
Qed.

(** With both totals different from 0 every non-empty tuple has a value. *)
Lemma probabilidad_definida self ngram :
  totalUnigrams self <> 0 -> totalNgrams self <> 0 -> ngram <> [] ->
  exists p, probabilidad self ngram = Ok p.
Proof.
  intros Hu Hn. induction ngram as [|w resto IH]; intros Hne; [done|].
  destruct resto as [|w' rest].
  - rewrite probabilidad_unigrama, truediv_ok by done. by eexists.
  - destruct (last_is_Some (w :: w' :: rest)) as [word Hw]; [done|].
    rewrite (probabilidad_superior _ _ word) by (simpl; lia || done).
    cbv zeta. destruct (_ =? 0).
    + rewrite truediv_ok by done. by eexists.
    + change (Py.slice_from 1 (w :: w' :: rest)) with (w' :: rest).
      destruct IH as [p ->]; [done|]. by eexists.
Qed.

End Valores.

(** ** Queries do not write *)

Section Marco.
Implicit Types (self : Engine) (ngram : list string).

Lemma _probabilidadCondicional_marco self :
  entrenado self ->
  forall ngram, (_probabilidadCondicional ngram self).1 = self.
Proof.
  intros Hent ngram. induction ngram as [|w resto IH]; [done|].
  destruct resto as [|w' rest]; [done|].
  rewrite _probabilidadCondicional_paso by done. cbv zeta.
  destruct (Z.eqb_spec (Counter.get (cuentasContexto self)
              (Py.slice_but_last (w :: w' :: rest))) 0) as [Hz|Hnz]; [done|].
  destruct (entrenado_contexto self (w :: w' :: rest) Hent) as (Hlen & _);
    [simpl; lia | done |].
  destruct Hent as (_ & [c Hc] & _).
  assert (Hleer : (leer_ngramCount (w :: w' :: rest) self).1 = self).
  { unfold leer_ngramCount. rewrite Hlen.
    by rewrite (ngramCounts_getitem_present _ _ c). }
  rewrite Hleer.
  destruct (_probabilidadCondicional (w' :: rest) self) as [e2 r].
  simpl in IH. subst e2. by destruct r.
Qed.

Lemma multiplicar_marco self :
  entrenado self ->
  forall ngrams prob, (multiplicar ngrams prob self).1 = self.
Proof.
  intros Hent ngrams. induction ngrams as [|g gs IH]; intros prob; [done|].
  simpl. unfold bind, obtenerProbabilidad.
  pose proof (_probabilidadCondicional_marco self Hent g) as Hg.
  destruct (_probabilidadCondicional g self) as [e1 r]. simpl in Hg. subst e1.
  destruct r; [apply IH | done].
Qed.

Lemma consultar_marco self q :
  entrenado self -> (consultar q self).1 = self.
Proof.
  intros Hent. destruct q as [ngram|oracion]; simpl.
  - by apply _probabilidadCondicional_marco.
  - unfold generarProbabilidadOracion. by apply multiplicar_marco.
Qed.

End Marco.

(** ** Windows of a sentence *)

Section Ventanas.
Implicit Types (tokens : list string).

Lemma tail_drop {A} (l : list A) i : tail (drop i l) = drop i (tail l).
Proof.
  revert i. induction l as [|x l IH]; intros [|i]; simpl; try done.
  rewrite IH. destruct l; [by destruct i | done].
Qed.

(** One round of [zip] over the suffixes from [a] on: the [k] items that
    start at [a], when the sequence has that many. *)
Lemma mapM_head_drop {A} (l : list A) k :
  forall a, (a <= length l)%nat ->
    mapM head ((fun i => drop i l) <$> seq a k)
    = if decide (a + k <= length l)%nat
      then Some (take k (drop a l)) else None.
Proof.
  induction k as [|k IH]; intros a Ha.
  - simpl. rewrite decide_True by lia. by rewrite take_0.
  - simpl. destruct (l !! a) as [x|] eqn:Hx.
    + rewrite (drop_S _ _ _ Hx). simpl.
      rewrite IH by (apply lookup_lt_Some in Hx; lia).
      apply lookup_lt_Some in Hx.
      destruct (decide (S a + k <= length l)%nat);
      destruct (decide (a + S k <= length l)%nat); try lia; done.
    + apply lookup_ge_None in Hx. rewrite drop_ge by lia. simpl.
      rewrite decide_False by lia. done.
Qed.

Lemma ventanas_contiguas_cortas k tokens :
  (length tokens < k)%nat -> ventanas_contiguas k tokens = [].
Proof.
  intros Hlt. unfold ventanas_contiguas.
  by replace (length tokens + 1 - k)%nat with 0%nat by lia.
Qed.

Lemma ventanas_contiguas_cons k t ts :
  (k <= S (length ts))%nat ->
  ventanas_contiguas k (t :: ts) = take k (t :: ts) :: ventanas_contiguas k ts.
Proof.
  intros Hk. unfold ventanas_contiguas.
  replace (length (t :: ts) + 1 - k)%nat with (S (length ts + 1 - k)) by (simpl; lia).
  rewrite <- cons_seq, fmap_cons, <- fmap_S_seq, <- list_fmap_compose.
  done.
Qed.

Lemma zip_rounds_ventanas k :
  (1 <= k)%nat ->
  forall tokens rounds, (length tokens <= rounds)%nat ->
    Py.zip_rounds rounds ((fun i => Py.slice_from i tokens) <$> seq 0 k)
    = ventanas_contiguas k tokens.
Proof.
  intros Hk tokens. unfold Py.slice_from.
  induction tokens as [|t ts IH]; intros rounds Hr.
  - rewrite ventanas_contiguas_cortas by (simpl; lia).
    destruct rounds as [|r]; [done|]. simpl.
    rewrite mapM_head_drop by lia. by rewrite decide_False by (simpl; lia).
  - destruct rounds as [|r]; [simpl in Hr; lia|]. simpl.
    rewrite mapM_head_drop by lia.
    destruct (decide (0 + k <= length (t :: ts))%nat) as [Hle|Hgt].
    + rewrite ventanas_contiguas_cons by (simpl in Hle; lia).
      f_equal. rewrite <- list_fmap_compose.
      rewrite <- (IH r) by (simpl in Hr; lia).
      f_equal. apply list_fmap_ext. intros _ i _. simpl.
      by rewrite tail_drop.
    + by rewrite ventanas_contiguas_cortas by lia.
Qed.

(** The windows the source forms with [zip] are the contiguous windows of
    length [n], for every order [n >= 1]. *)
Lemma ngramas_ventanas order tokens :
  1 <= order ->
  ngramas order tokens = ventanas_contiguas (Z.to_nat order) tokens.
Proof.
  intros Ho. unfold ngramas, Py.range, Py.zip_star.
  destruct (Z.to_nat order) as [|k] eqn:Hk; [lia|].
  rewrite <- (zip_rounds_ventanas (S k)) with (rounds := length tokens)
    by lia.
  reflexivity.
Qed.

(** An order below 1 forms no window at all. *)
Lemma ngramas_orden_bajo order tokens : order < 1 -> ngramas order tokens = [].
Proof.
  intros Ho. unfold ngramas, Py.range.
  by replace (Z.to_nat order) with 0%nat by lia.
Qed.

End Ventanas.

(** ** Scoring a sentence *)

Section Oracion.
Implicit Types (e self : Engine).

Lemma multiplicar_producto ngrams :
  forall prob e,
    (multiplicar ngrams prob e).2 = producto (probabilidad e <$> ngrams) prob.
Proof.
  induction ngrams as [|g gs IH]; intros prob e; [done|].
  simpl. unfold bind.
  pose proof (_probabilidadCondicional_estado g e) as HR.
  unfold probabilidad at 1.
  unfold obtenerProbabilidad in *.
  destruct (_probabilidadCondicional g e) as [e1 r]. simpl in *.
  destruct r as [p|x]; [|done].
  rewrite IH. f_equal. apply list_fmap_ext. intros _ g' _.
  unfold probabilidad, obtenerProbabilidad.
  by apply _probabilidadCondicional_valor.
Qed.

Lemma producto_ok rs :
  forall ps acc, Forall2 (fun r p => r = Ok p) rs ps ->
    producto rs acc = Ok (fold_left Qmult ps acc).
Proof.
  induction rs as [|r rs IH]; intros ps acc Hall.
  - by apply Forall2_nil_inv_l in Hall as ->.
  - apply Forall2_cons_inv_l in Hall as (p & ps' & -> & Hall & ->).
    simpl. by apply IH.
Qed.

End Oracion.

(** ** The depth of the recursion *)

Section Profundidad.
Implicit Types (self : Engine) (ngram : list string).

(** A budget of nested calls one short of the tuple's length is enough,
    and the bounded method then agrees with the method. *)
Lemma limitada_suficiente ngram :
  forall limite self, (length ngram <= S limite)%nat ->
    _probabilidadCondicional_limitada limite ngram self
    = Some (_probabilidadCondicional ngram self).
Proof.
  induction ngram as [|w resto IH]; intros limite self Hlen.
  - by destruct limite.
  - destruct resto as [|w' rest]; [by destruct limite|].
    destruct limite as [|limite]; [simpl in Hlen; lia|].
    rewrite _probabilidadCondicional_paso by done. cbv zeta.
    assert (Hlast : Py.getitem_last (w :: w' :: rest)
                    = Ok (default w (last (w' :: rest)))).
    { unfold Py.getitem_last. rewrite last_cons.
      by destruct (last (w' :: rest)). }
    change (_probabilidadCondicional_limitada (S limite) (w :: w' :: rest) self)
      with
      (match Py.getitem_last (w :: w' :: rest) with
       | Raise e => Some (self, Raise e)
       | Ok word =>
           let prefixCount :=
             Counter.get (cuentasContexto self)
               (Py.slice_but_last (w :: w' :: rest)) in
           if prefixCount =? 0 then Some (_probabilidadContinuacion word self)
           else
             match leer_ngramCount (w :: w' :: rest) self with
             | (self1, Raise e) => Some (self1, Raise e)
             | (self1, Ok ngramCount) =>
                 match _probabilidadCondicional_limitada limite
                         (w' :: rest) self1 with
                 | None => None
                 | Some (self2, Raise e) => Some (self2, Raise e)
                 | Some (self2, Ok lowerOrderProb) =>
                     Some (interpolar ngramCount prefixCount lowerOrderProb self2)
                 end
             end
       end).
    rewrite Hlast. cbv zeta.
    destruct (Z.eqb_spec (Counter.get (cuentasContexto self)
                (Py.slice_but_last (w :: w' :: rest))) 0) as [Hz|Hnz]; [done|].
    destruct (leer_ngramCount_lecturas (w :: w' :: rest) self) as [_ Hv].
    destruct (leer_ngramCount (w :: w' :: rest) self) as [self1 r1].
    simpl in Hv. subst r1. simpl fst.
    rewrite IH by (simpl in *; lia).
    destruct (_probabilidadCondicional (w' :: rest) self1) as [self2 [lower|x]];
      [|done].
    by rewrite interpolar_ok.
Qed.

(** Without any recursive call allowed, the continuation fallback and the
    base case still return. *)
Lemma limitada_sin_recursion ngram word self :
  (2 <= length ngram)%nat -> last ngram = Some word ->
  Counter.get (cuentasContexto self) (Py.slice_but_last ngram) = 0 ->
  _probabilidadCondicional_limitada 0 ngram self
  = Some (self, Py.truediv (Counter.get (cuentasContinuacion self) [word])
                  (totalNgrams self)).
Proof.
  intros Hlen Hlast Hz.
  destruct ngram as [|w [|w' rest]]; simpl in Hlen; try lia.
  unfold _probabilidadCondicional_limitada.
  change (length (w :: w' :: rest) =? 1)%nat with false. cbv iota zeta.
  unfold Py.getitem_last. rewrite Hlast, Hz. reflexivity.
Qed.

End Profundidad.

(** ** Tokens the corpus never showed *)

Section NoObservado.
Implicit Types (self : Engine) (w : string).

Lemma update_no_observado (c : gmap string Z) ks w :
  w ∉ ks -> Counter.get (Counter.update c ks) w = Counter.get c w.
Proof.
  unfold Counter.update. revert c.
  induction ks as [|k ks IH]; intros c Hnot; simpl; [done|].
  apply not_elem_of_cons in Hnot as [Hne Hnot].
  rewrite IH by done. by apply get_incr_ne.
Qed.

Lemma contar_oracion_unigramas self oracion :
  unigramCounts (contar_oracion self oracion)
  = Counter.update (unigramCounts self) (Py.split oracion).
Proof.
  unfold contar_oracion. cbv zeta.
  by rewrite (fold_left_preserva contar_ngram unigramCounts).
Qed.

Lemma _calcularFrecuencias_no_observado corpus0 w :
  (forall oracion, oracion ∈ corpus0 -> w ∉ Py.split oracion) ->
  forall self,
    Counter.get (unigramCounts (_calcularFrecuencias corpus0 self)) w
    = Counter.get (unigramCounts self) w.
Proof.
  unfold _calcularFrecuencias.
  induction corpus0 as [|o os IH]; intros Hno self; simpl; [done|].
  rewrite IH by (intros o' Ho'; apply Hno; by apply list_elem_of_further).
  rewrite contar_oracion_unigramas.
  apply update_no_observado, Hno, list_elem_of_here.
Qed.

Lemma derivadas_unigramas self :
  unigramCounts (_calcularCuentasContexto (_calcularCuentasContinuacion self))
  = unigramCounts self.
Proof.
  unfold _calcularCuentasContexto, _calcularCuentasContinuacion.
  destruct (ngramCounts_getitem_lecturas (n self) self) as [(_&_&Hu&_) _].
  destruct (ngramCounts_getitem (n self) self) as [s1 c1]. simpl in Hu.
  set (s2 := set_cuentasContinuacion _ s1).
  destruct (ngramCounts_getitem_lecturas (n s2) s2) as [(_&_&Hu2&_) _].
  destruct (ngramCounts_getitem (n s2) s2) as [s3 c3]. simpl in *.
  congruence.
Qed.

(** A token that no sentence of the corpus holds has count 0. *)
Lemma unigramCounts_no_observado corpus0 order D w :
  (forall oracion, oracion ∈ corpus0 -> w ∉ Py.split oracion) ->
  Counter.get (unigramCounts (construir corpus0 order D)) w = 0.
Proof.
  intros Hno. unfold construir. rewrite derivadas_unigramas.
  rewrite _calcularFrecuencias_no_observado by done. apply get_empty.
Qed.

End NoObservado.

(** ** The claims *)

(** An engine that construction never hands back: a context is counted but
    no order is present in [ngramCounts].  On it the reading of line 142
    writes to the defaultdict, so the model of a query can change a table;
    the frame property below is about what construction establishes. *)
Example defaultdict_escribe_sin_entrenar :
  let suelto := mkEngine 2 (3 # 4) ∅ ∅ ∅ {[ ["a"]%string := 1 ]} 1 1 in
  ngramCounts (obtenerProbabilidad ["a"; "b"]%string suelto).1 = {[ 2 := ∅ ]}
  /\ ngramCounts suelto = ∅.
Proof. split; reflexivity. Qed.

(** The bound on the depth bites: the bigram ("el", "gato") of the demo
    needs its one recursive call. *)
Example limitada_cero_no_basta :
  _probabilidadCondicional_limitada 0 ["el"; "gato"]%string kneserNey = None.
Proof. vm_compute. reflexivity. Qed.

(** C1 (the code departs from the claim).  The claim: for every tuple of
    length 1..n, [probability] returns a float in the closed interval
    [0, 1].  On the demo engine of the source (order 2, discount 0.75, the
    five-sentence corpus) the method returns 19/16 = 1.1875 for
    ("el", "perro"): the discounted count 3 - 0.75 is divided by the number
    of distinct continuations of "el" (2), not by the occurrences of "el". *)
Theorem C1_el_perro_excede_uno :
  exists p, probabilidad kneserNey ["el"; "perro"]%string = Ok p
            /\ (p == 19 # 16)%Q /\ (1 < p)%Q.
Proof.
  eexists. split; [vm_compute; reflexivity|]. split; reflexivity.
Qed.

(** C2, counterexample.  The claim wants construction to raise when
    [n < 1], when the discount is outside (0,1) and when the corpus yields no
    n-gram.  Construction raises in none of the three cases: order 0;
    discount 3/2; the empty corpus, which leaves [totalNgrams = 0]. *)
Lemma C2_construccion_no_valida :
  (0 < 1 /\ forall exc, __init__ corpus 0 (3 # 4) <> Raise exc)
  /\ (~ (3 # 2 < 1)%Q /\ forall exc, __init__ corpus 2 (3 # 2) <> Raise exc)
  /\ (totalNgrams (construir [] 2 (3 # 4)) = 0
      /\ forall exc, __init__ [] 2 (3 # 4) <> Raise exc).
Proof.
  repeat split; done.
Qed.

(** C2, amended.  Construction validates nothing and never raises: for
    every order, discount and corpus it returns an engine configured with
    that order and that discount.  When the corpus yields no n-gram of the
    configured order ([totalNgrams = 0]) the engine is produced all the same,
    and the division by zero surfaces later: every query of a tuple of two
    tokens or more raises [ZeroDivisionError]. *)
Theorem C2_construccion_total (corpus0 : list string) (order : Z) (D : Q) :
  exists self,
    __init__ corpus0 order D = Ok self
    /\ n self = order /\ descuento self = D
    /\ (totalNgrams self = 0 ->
        forall ngram, (2 <= length ngram)%nat ->
          probabilidad self ngram = Raise ZeroDivisionError).
Proof.
  exists (construir corpus0 order D). split; [reflexivity|].
  destruct (construir_config corpus0 order D) as [Hn HD].
  split; [done|]. split; [done|].
  intros Hcero ngram Hlen.
  pose proof (construir_entrenado corpus0 order D) as Hent.
  destruct (last_is_Some ngram) as [word Hw];
    [intros ->; simpl in Hlen; lia|].
  rewrite (probabilidad_superior _ _ word) by done. cbv zeta.
  destruct (Z.eqb_spec (Counter.get (cuentasContexto (construir corpus0 order D))
              (Py.slice_but_last ngram)) 0) as [Hz|Hnz].
  - rewrite Hcero. apply truediv_cero.
  - destruct (entrenado_contexto _ ngram Hent Hlen Hnz) as (_ & Hpos & _). lia.
Qed.

(** C3.  On a constructed engine, for every tuple of length k > 1 whose
    prefix has [ContextCounts[prefix] > 0], the recursive probability of the
    tuple without its first token returns a value [lowerOrderProb], and
    [probability] returns exactly
    [max(ngramCount - D, 0) / prefixCount + D * lowerOrderProb / prefixCount],
    with [ngramCount = NgramCounts[k][ngram]] (0 if unseen) and
    [prefixCount = ContextCounts[prefix]]. *)
Theorem C3_formula_interpolada (corpus0 : list string) (order : Z) (D : Q)
  (ngram : list string) :
  let self := construir corpus0 order D in
  let prefixCount :=
    Counter.get (cuentasContexto self) (Py.slice_but_last ngram) in
  let ngramCount := ngram_count self (Z.of_nat (length ngram)) ngram in
  (1 < length ngram)%nat ->
  0 < prefixCount ->
  exists lowerOrderProb,
    probabilidad self (Py.slice_from 1 ngram) = Ok lowerOrderProb
    /\ probabilidad self ngram
       = Ok (Py.max0 (inject_Z ngramCount - D) / inject_Z prefixCount
             + D * lowerOrderProb / inject_Z prefixCount)%Q.
Proof.
  intros self prefixCount ngramCount Hlen Hpos.
  pose proof (construir_entrenado corpus0 order D) as Hent.
  destruct (construir_config corpus0 order D) as [_ HD].
  fold self in Hent, HD.
  destruct (entrenado_contexto self ngram Hent) as (_ & Hn & Hu);
    [lia | unfold prefixCount in Hpos; lia |].
  destruct (probabilidad_definida self (Py.slice_from 1 ngram)) as [lower Hlower];
    [lia | lia | |].
  { destruct ngram as [|w [|w' rest]]; simpl in Hlen; try lia. done. }
  exists lower. split; [done|].
  destruct (last_is_Some ngram) as [word Hw];
    [intros ->; simpl in Hlen; lia|].
  rewrite (probabilidad_superior _ _ word) by (lia || done). cbv zeta.
  fold prefixCount. destruct (Z.eqb_spec prefixCount 0) as [Hz|_]; [lia|].
  rewrite Hlower, HD. reflexivity.
Qed.

(** The formula of C3 at the demo engine and the bigram ("el", "gato"),
    whose context "el" has two distinct continuations. *)
Lemma C3_testigo :
  exists lowerOrderProb,
    probabilidad kneserNey ["gato"]%string = Ok lowerOrderProb
    /\ probabilidad kneserNey ["el"; "gato"]%string
       = Ok (Py.max0 (inject_Z 2 - (3 # 4)) / inject_Z 2
             + (3 # 4) * lowerOrderProb / inject_Z 2)%Q.
Proof.
  apply (C3_formula_interpolada corpus 2 (3 # 4) ["el"; "gato"]%string).
  - simpl. lia.
  - vm_compute. reflexivity.
Defined.

(** C4.  The tables are built by construction and no query writes to them:
    after any sequence of [probability] and [sentenceProbability] queries on
    a constructed engine, whatever the tuples and their lengths, the engine
    (hence each of its count tables) is the one construction returned. *)
Theorem C4_consultas_no_escriben (corpus0 : list string) (order : Z) (D : Q)
  (qs : list Consulta) :
  (ejecutar qs (construir corpus0 order D)).1 = construir corpus0 order D.
Proof.
  pose proof (construir_entrenado corpus0 order D) as Hent.
  induction qs as [|q qs IH]; [done|].
  simpl. pose proof (consultar_marco _ q Hent) as Hq.
  destruct (consultar q (construir corpus0 order D)) as [self1 r].
  simpl in Hq. subst self1.
  destruct (ejecutar qs (construir corpus0 order D)) as [self2 rs].
  by simpl in *.
Qed.

(** C5, counterexample.  The engine built from the empty corpus (which
    construction accepts) has [totalNgrams = 0]; the prefix ("el",) of the
    tuple ("el", "gato") has context count 0, and the query raises
    [ZeroDivisionError] where the claim says it returns the quotient. *)
Lemma C5_corpus_vacio_lanza :
  (2 <= length ["el"; "gato"]%string)%nat
  /\ Counter.get (cuentasContexto (construir [] 2 (3 # 4)))
       (Py.slice_but_last ["el"; "gato"]%string) = 0
  /\ probabilidad (construir [] 2 (3 # 4)) ["el"; "gato"]%string
     = Raise ZeroDivisionError.
Proof. split; [simpl; lia|]. split; reflexivity. Qed.

(** C5, amended.  On an engine whose [totalNgramCount] is not 0 (the
    corpus yielded at least one n-gram of the configured order), for every
    tuple of length >= 2 whose prefix has [ContextCounts[prefix] == 0],
    [probability] returns exactly
    [ContinuationCounts[(word,)] / totalNgramCount] for the tuple's last
    word and leaves the engine as it was.  No recursive call is made: the
    method returns under a budget of zero nested calls, so the discount
    formula, which needs the recursive value, is not applied. *)
Theorem C5_respaldo_continuacion (self : Engine) (ngram : list string)
  (word : string) :
  (2 <= length ngram)%nat ->
  last ngram = Some word ->
  Counter.get (cuentasContexto self) (Py.slice_but_last ngram) = 0 ->
  totalNgrams self <> 0 ->
  obtenerProbabilidad ngram self
  = (self, Ok (inject_Z (Counter.get (cuentasContinuacion self) [word])
               / inject_Z (totalNgrams self))%Q)
  /\ _probabilidadCondicional_limitada 0 ngram self
     = Some (obtenerProbabilidad ngram self).
Proof.
  intros Hlen Hlast Hz Hn.
  assert (Hval : obtenerProbabilidad ngram self
                 = (self, Py.truediv
                            (Counter.get (cuentasContinuacion self) [word])
                            (totalNgrams self))).
  { destruct ngram as [|w [|w' rest]]; simpl in Hlen; try lia.
    unfold obtenerProbabilidad.
    rewrite _probabilidadCondicional_paso by done. cbv zeta. rewrite Hz.
    change (0 =? 0) with true. cbv iota.
    rewrite last_cons in Hlast.
    destruct (last (w' :: rest)); simpl; congruence. }
  split.
  - by rewrite Hval, truediv_ok.
  - by rewrite (limitada_sin_recursion _ word), Hval.
Qed.

(** The fallback of C5 at the demo engine and ("pescado", "el"): "pescado"
    never opens a bigram of the corpus, which has 13 bigrams. *)
Lemma C5_testigo :
  obtenerProbabilidad ["pescado"; "el"]%string kneserNey
  = (kneserNey,
     Ok (inject_Z (Counter.get (cuentasContinuacion kneserNey) ["el"]%string)
         / inject_Z (totalNgrams kneserNey))%Q)
  /\ _probabilidadCondicional_limitada 0 ["pescado"; "el"]%string kneserNey
     = Some (obtenerProbabilidad ["pescado"; "el"]%string kneserNey).
Proof.
  apply (C5_respaldo_continuacion kneserNey ["pescado"; "el"]%string "el"%string).
  - simpl. lia.
  - reflexivity.
  - vm_compute. reflexivity.
  - vm_compute. discriminate.
Defined.

(** C6, counterexample.  The engine built from the empty corpus (which
    construction accepts) has [totalUnigrams = 0]; the token "gato" is
    unseen, and querying ("gato",) raises [ZeroDivisionError] where the
    claim promises the value 0 and no exception. *)
Lemma C6_corpus_vacio_lanza :
  Counter.get (unigramCounts (construir [] 2 (3 # 4))) "gato"%string = 0
  /\ probabilidad (construir [] 2 (3 # 4)) ["gato"]%string
     = Raise ZeroDivisionError.
Proof. split; reflexivity. Qed.

(** C6, amended.  On an engine whose corpus held at least one token
    ([totalUnigramTokens > 0]), for every single-token tuple (w,),
    [probability] returns [UnigramCounts[w] / totalUnigramTokens] and raises
    nothing; when no sentence of the corpus holds [w], [UnigramCounts[w]] is
    0 and the returned value is 0. *)
Theorem C6_probabilidad_unigrama (corpus0 : list string) (order : Z) (D : Q)
  (w : string) :
  let self := construir corpus0 order D in
  0 < totalUnigrams self ->
  probabilidad self [w]
  = Ok (inject_Z (Counter.get (unigramCounts self) w)
        / inject_Z (totalUnigrams self))%Q
  /\ ((forall oracion, oracion ∈ corpus0 -> w ∉ Py.split oracion) ->
      Counter.get (unigramCounts self) w = 0
      /\ (inject_Z (Counter.get (unigramCounts self) w)
          / inject_Z (totalUnigrams self) == 0)%Q).
Proof.
  intros self Hpos. split.
  - rewrite probabilidad_unigrama. apply truediv_ok. lia.
  - intros Hno.
    pose proof (unigramCounts_no_observado corpus0 order D w Hno) as Hcero.
    fold self in Hcero. split; [done|].
    rewrite Hcero. unfold Qdiv. by rewrite Qmult_0_l.
Qed.

(** The base case of C6 at the demo engine, whose corpus has 18 tokens. *)
Lemma C6_testigo :
  probabilidad kneserNey ["gato"]%string
  = Ok (inject_Z (Counter.get (unigramCounts kneserNey) "gato"%string)
        / inject_Z (totalUnigrams kneserNey))%Q
  /\ ((forall oracion, oracion ∈ corpus -> "gato"%string ∉ Py.split oracion) ->
      Counter.get (unigramCounts kneserNey) "gato"%string = 0
      /\ (inject_Z (Counter.get (unigramCounts kneserNey) "gato"%string)
          / inject_Z (totalUnigrams kneserNey) == 0)%Q).
Proof.
  apply (C6_probabilidad_unigrama corpus 2 (3 # 4) "gato"%string).
  vm_compute. reflexivity.
Defined.

(** C7.  For every sentence, on an engine of order [n >= 1],
    [sentenceProbability] is the product, seeded at 1.0 and taken from left
    to right, of [probability] over all contiguous windows of length [n] of
    the sentence's whitespace tokens (a window whose query raises makes the
    call raise); when every window has a value the result is the product of
    those values; a sentence with fewer than [n] tokens forms no window and
    yields exactly 1.0, the engine untouched. *)
Theorem C7_producto_de_ventanas (self : Engine) (oracion : string) :
  1 <= n self ->
  let tokens := Py.split oracion in
  let ventanas := ventanas_contiguas (Z.to_nat (n self)) tokens in
  (generarProbabilidadOracion oracion self).2
  = producto (probabilidad self <$> ventanas) 1%Q
  /\ (forall ps, Forall2 (fun g p => probabilidad self g = Ok p) ventanas ps ->
        (generarProbabilidadOracion oracion self).2
        = Ok (fold_left Qmult ps 1%Q))
  /\ (Z.of_nat (length tokens) < n self ->
      ventanas = [] /\ generarProbabilidadOracion oracion self = (self, Ok 1%Q)).
Proof.
  intros Hn tokens ventanas.
  assert (Hv : ngramas (n self) tokens = ventanas)
    by (by apply ngramas_ventanas).
  assert (Hprod : (generarProbabilidadOracion oracion self).2
                  = producto (probabilidad self <$> ventanas) 1%Q).
  { unfold generarProbabilidadOracion. fold tokens. rewrite Hv.
    apply multiplicar_producto. }
  split; [done|]. split.
  - intros ps Hall. rewrite Hprod. apply producto_ok.
    by apply Forall2_fmap_l.
  - intros Hcorta.
    assert (Hnil : ventanas = [])
      by (apply ventanas_contiguas_cortas; lia).
    split; [done|].
    unfold generarProbabilidadOracion. fold tokens. by rewrite Hv, Hnil.
Qed.

(** The product of C7 at the demo engine and the sentence scored by the
    source, line 213. *)
Lemma C7_testigo :
  (generarProbabilidadOracion "el perro come carne" kneserNey).2
  = producto (probabilidad kneserNey
                <$> ventanas_contiguas 2 (Py.split "el perro come carne")) 1%Q
  /\ (forall ps,
        Forall2 (fun g p => probabilidad kneserNey g = Ok p)
          (ventanas_contiguas 2 (Py.split "el perro come carne")) ps ->
        (generarProbabilidadOracion "el perro come carne" kneserNey).2
        = Ok (fold_left Qmult ps 1%Q))
  /\ (Z.of_nat (length (Py.split "el perro come carne")) < n kneserNey ->
      ventanas_contiguas 2 (Py.split "el perro come carne") = []
      /\ generarProbabilidadOracion "el perro come carne" kneserNey
         = (kneserNey, Ok 1%Q)).
Proof.
  apply (C7_producto_de_ventanas kneserNey "el perro come carne").
  vm_compute. discriminate.
Defined.

(** C8.  For every tuple of length k >= 1 the recursive computation
    terminates: each recursive call is made on the tuple without its first
    token, one token shorter, and a budget of k - 1 nested recursive calls is
    enough for the method to return its result. *)
Theorem C8_terminacion (self : Engine) (ngram : list string) :
  (1 <= length ngram)%nat ->
  _probabilidadCondicional_limitada (length ngram - 1) ngram self
  = Some (obtenerProbabilidad ngram self)
  /\ S (length (Py.slice_from 1 ngram)) = length ngram.
Proof.
  intros Hlen. split.
  - apply limitada_suficiente. lia.
  - destruct ngram; simpl in *; [lia | done].
Qed.

(** The bound of C8 at the demo engine and a bigram: one nested call. *)
Lemma C8_testigo :
  _probabilidadCondicional_limitada 1 ["el"; "gato"]%string kneserNey
  = Some (obtenerProbabilidad ["el"; "gato"]%string kneserNey)
  /\ S (length (Py.slice_from 1 ["el"; "gato"]%string)) = 2%nat.
Proof.
  apply (C8_terminacion kneserNey ["el"; "gato"]%string). simpl. lia.
Defined.

(** C9.  The engine constructed with order 2, discount 0.75 and the
    five-sentence corpus of the source answers ("el", "gato") with exactly
    2/3, the value of [max(2 - 0.75, 0)/2 + 0.75 * (2/18)/2]. *)
Theorem C9_el_gato_dos_tercios :
  exists self p,
    __init__ [ "el gato come pescado"; "el perro come carne"; "el gato duerme";
               "el perro ladra"; "el perro come pescado" ]%string 2 (75 # 100)
    = Ok self
    /\ probabilidad self ["el"; "gato"]%string = Ok p
    /\ (p == 2 # 3)%Q
    /\ (p == Py.max0 (2 - (75 # 100)) / 2 + (75 # 100) * (2 # 18) / 2)%Q.
Proof.
  eexists. eexists. split; [reflexivity|].
  split; [vm_compute; reflexivity|]. split; reflexivity.
Qed.

(** C10.  [probability] is defined only for non-empty tuples: on an engine
    with [totalUnigrams > 0] and [totalNgrams > 0] every tuple of length >= 1
    has a value, and on every engine the empty tuple skips the length-1 base
    case and raises [IndexError] at the access to its last element. *)
Theorem C10_definida_solo_no_vacia (self : Engine) :
  (0 < totalUnigrams self -> 0 < totalNgrams self ->
   forall ngram, (1 <= length ngram)%nat ->
     exists p, probabilidad self ngram = Ok p)
  /\ obtenerProbabilidad [] self = (self, Raise IndexError).
Proof.
  split; [|reflexivity].
  intros Hu Hn ngram Hlen. apply probabilidad_definida; try lia.
  intros ->. simpl in Hlen. lia.
Qed.

(** C10 at the demo engine, on a tuple longer than the order and on the
    empty tuple. *)
Lemma C10_testigo :
  (exists p, probabilidad kneserNey ["perro"; "pescado"; "rojo"]%string = Ok p)
  /\ obtenerProbabilidad [] kneserNey = (kneserNey, Raise IndexError).
Proof.
  split.
  - apply (proj1 (C10_definida_solo_no_vacia kneserNey)).
    + vm_compute. reflexivity.
    + vm_compute. reflexivity.
    + simpl. lia.
  - apply (proj2 (C10_definida_solo_no_vacia kneserNey)).
Defined.


(** * Further properties of the counting tables *)

(** ** What the tables count *)

Section Conteo.
Implicit Types (self : Engine) (g ngram : list string) (w : string).

Lemma ocurrencias_nil {A} `{EqDecision A} (x : A) : ocurrencias x [] = 0.
Proof. reflexivity. Qed.

Lemma ocurrencias_app {A} `{EqDecision A} (x : A) l1 l2 :
  ocurrencias x (l1 ++ l2) = ocurrencias x l1 + ocurrencias x l2.
Proof. unfold ocurrencias. rewrite filter_app, length_app. lia. Qed.

Lemma ocurrencias_cons {A} `{EqDecision A} (x y : A) l :
  ocurrencias x (y :: l)
  = (if decide (y = x) then 1 else 0) + ocurrencias x l.
Proof.
  unfold ocurrencias. rewrite filter_cons.
  destruct (decide (y = x)); simpl; lia.
Qed.

Lemma ocurrencias_no_neg {A} `{EqDecision A} (x : A) l : 0 <= ocurrencias x l.
Proof. unfold ocurrencias. lia. Qed.

Lemma ocurrencias_le {A} `{EqDecision A} (x : A) l :
  ocurrencias x l <= Z.of_nat (length l).
Proof. unfold ocurrencias. pose proof (length_filter (fun y => y = x) l). lia. Qed.

Lemma ocurrencias_pos {A} `{EqDecision A} (x : A) l :
  0 < ocurrencias x l <-> x ∈ l.
Proof.
  induction l as [|y l IH]; [rewrite ocurrencias_nil; split; [lia|]|].
  - intros Hin. by apply not_elem_of_nil in Hin.
  - rewrite ocurrencias_cons, elem_of_cons.
    pose proof (ocurrencias_no_neg x l).
    destruct (decide (y = x)) as [->|Hne]; [split; [by left | lia]|].
    rewrite Z.add_0_l, IH. split; [by right|]. intros [->|?]; done.
Qed.

Lemma get_update (c : gmap string Z) ks w :
  Counter.get (Counter.update c ks) w = Counter.get c w + ocurrencias w ks.
Proof.
  unfold Counter.update. revert c.
  induction ks as [|k ks IH]; intros c; simpl.
  - rewrite ocurrencias_nil. lia.
  - rewrite IH, ocurrencias_cons. destruct (decide (k = w)) as [->|Hne].
    + rewrite get_incr_eq. lia.
    + rewrite get_incr_ne by done. lia.
Qed.
Lemma tabla_de_inicial : tabla_de ∅ [].
Proof.
  intros k g. rewrite lookup_empty. simpl. rewrite lookup_empty.
  rewrite decide_False; [done|]. intros [_ Hin]. by apply not_elem_of_nil in Hin.
Qed.

Lemma ocurrencias_fuera {A} `{EqDecision A} (x : A) l :
  x ∉ l -> ocurrencias x l = 0.
Proof.
  intros Hno. pose proof (ocurrencias_no_neg x l).
  destruct (decide (0 < ocurrencias x l)) as [Hpos|?]; [|lia].
  by apply ocurrencias_pos in Hpos.
Qed.

Lemma contar_ngram_tabla self ngram vistos :
  tabla_de (ngramCounts self) vistos ->
  tabla_de (ngramCounts (contar_ngram self ngram)) (vistos ++ [ngram])
  /\ totalNgrams (contar_ngram self ngram) = totalNgrams self + 1.
Proof.
  intros Htab. split; [|done]. intros k g. unfold contar_ngram. simpl.
  rewrite ocurrencias_app, ocurrencias_cons, ocurrencias_nil.
  assert (Hmem : g ∈ vistos ++ [ngram] <-> g ∈ vistos \/ ngram = g).
  { rewrite elem_of_app, list_elem_of_singleton. intuition congruence. }
  destruct (decide (Z.of_nat (length ngram) = k)) as [<-|Hk].
  - rewrite lookup_insert_eq. simpl. unfold Counter.incr, Counter.get.
    destruct (decide (ngram = g)) as [<-|Hne].
    + rewrite lookup_insert_eq, (Htab (Z.of_nat (length ngram)) ngram).
      repeat case_decide; try (exfalso; intuition congruence); simpl; f_equal; try lia.
      rewrite ocurrencias_fuera; [lia | intuition congruence].
    + rewrite lookup_insert_ne, (Htab (Z.of_nat (length ngram)) g) by done.
      repeat case_decide; try (exfalso; intuition congruence); try done.
      f_equal. lia.
  - rewrite lookup_insert_ne by done. rewrite (Htab k g).
    repeat case_decide; try (exfalso; intuition congruence); try done.
    f_equal. lia.
Qed.

Lemma fold_contar_ngram_tabla ngrams :
  forall self vistos,
    tabla_de (ngramCounts self) vistos ->
    tabla_de (ngramCounts (fold_left contar_ngram ngrams self)) (vistos ++ ngrams)
    /\ totalNgrams (fold_left contar_ngram ngrams self)
       = totalNgrams self + Z.of_nat (length ngrams).
Proof.
  induction ngrams as [|g gs IH]; intros self vistos Htab; simpl.
  - rewrite app_nil_r. split; [done | lia].
  - destruct (contar_ngram_tabla self g vistos Htab) as [Htab' Htn].
    destruct (IH _ _ Htab') as [Htab'' Htn'].
    rewrite <- app_assoc in Htab''. split; [done|]. rewrite Htn', Htn. lia.
Qed.

Lemma contar_oracion_tabla self oracion vistos :
  tabla_de (ngramCounts self) vistos ->
  tabla_de (ngramCounts (contar_oracion self oracion))
    (vistos ++ ngramas (n self) (Py.split oracion))
  /\ totalNgrams (contar_oracion self oracion)
     = totalNgrams self
       + Z.of_nat (length (ngramas (n self) (Py.split oracion)))
  /\ totalUnigrams (contar_oracion self oracion)
     = totalUnigrams self + Z.of_nat (length (Py.split oracion)).
Proof.
  intros Htab. unfold contar_oracion. cbv zeta.
  set (s0 := set_unigramCounts _ _).
  change (n self) with (n s0).
  destruct (fold_contar_ngram_tabla (ngramas (n s0) (Py.split oracion)) s0 vistos)
    as [Ht Hn]; [done|].
  split; [done|]. split; [done|].
  by rewrite (fold_left_preserva contar_ngram totalUnigrams).
Qed.

Lemma _calcularFrecuencias_tabla corpus0 :
  forall self vistos,
    tabla_de (ngramCounts self) vistos ->
    let s := _calcularFrecuencias corpus0 self in
    tabla_de (ngramCounts s) (vistos ++ ngramas_del_corpus (n self) corpus0)
    /\ totalNgrams s
       = totalNgrams self
         + Z.of_nat (length (ngramas_del_corpus (n self) corpus0))
    /\ totalUnigrams s
       = totalUnigrams self + Z.of_nat (length (tokens_del_corpus corpus0))
    /\ forall w, Counter.get (unigramCounts s) w
                 = Counter.get (unigramCounts self) w
                   + ocurrencias w (tokens_del_corpus corpus0).
Proof.
  unfold _calcularFrecuencias, ngramas_del_corpus, tokens_del_corpus.
  induction corpus0 as [|o os IH]; intros self vistos Htab.
  - simpl. rewrite app_nil_r. split; [done|]. split; [lia|]. split; [lia|].
    intros w. rewrite ocurrencias_nil. lia.
  - cbv zeta. rewrite !bind_cons.
    change (fold_left contar_oracion (o :: os) self)
      with (fold_left contar_oracion os (contar_oracion self o)).
    destruct (contar_oracion_tabla self o vistos Htab) as (Ht & Hn & Hu).
    destruct (IH _ _ Ht) as (Ht' & Hn' & Hu' & Hw').
    destruct (contar_oracion_marco self o) as (Hord & _).
    rewrite Hord in *. rewrite <- app_assoc in Ht'.
    split; [done|].
    rewrite !length_app. split; [lia|]. split; [lia|].
    intros w. rewrite Hw', contar_oracion_unigramas, get_update, ocurrencias_app.
    lia.
Qed.

End Conteo.

Section Derivadas.
Implicit Types (self : Engine) (g ngram : list string) (w : string).

Lemma ngramCounts_getitem_ausente k self :
  ngramCounts self !! k = None ->
  ngramCounts_getitem k self
  = (set_ngramCounts (<[k := ∅]> (ngramCounts self)) self, ∅).
Proof. intros Hk. unfold ngramCounts_getitem. by rewrite Hk. Qed.

(** The engine the two derived loops leave: the two tables are folds over
    the keys of the table of the configured order; nothing else is touched,
    but for an empty Counter filed under a configured order that had none. *)
Lemma derivadas_forma self :
  let c := default ∅ (ngramCounts self !! n self) in
  exists d,
    (forall k, default ∅ (d !! k) = default ∅ (ngramCounts self !! k))
    /\ _calcularCuentasContexto (_calcularCuentasContinuacion self)
       = mkEngine (n self) (descuento self) (unigramCounts self) d
           (fold_left (fun acc g => Counter.incr acc (Py.slice_from 1 g))
              (Counter.keys c) (cuentasContinuacion self))
           (fold_left (fun acc g => Counter.incr acc (Py.slice_but_last g))
              (Counter.keys c) (cuentasContexto self))
           (totalNgrams self) (totalUnigrams self).
Proof.
  cbv zeta. destruct (ngramCounts self !! n self) as [c|] eqn:Hc.
  - exists (ngramCounts self). split; [done|].
    unfold _calcularCuentasContinuacion.
    rewrite (ngramCounts_getitem_present _ _ c Hc).
    set (s2 := set_cuentasContinuacion _ self).
    unfold _calcularCuentasContexto.
    by rewrite (ngramCounts_getitem_present (n s2) s2 c Hc).
  - exists (<[n self := ∅]> (ngramCounts self)). split.
    + intros k. destruct (decide (n self = k)) as [<-|Hne].
      * by rewrite lookup_insert_eq, Hc.
      * by rewrite lookup_insert_ne.
    + unfold _calcularCuentasContinuacion.
      rewrite (ngramCounts_getitem_ausente _ _ Hc).
      set (s1 := set_ngramCounts _ self).
      set (s2 := set_cuentasContinuacion _ s1).
      assert (Hc2 : ngramCounts s2 !! n s2 = Some ∅)
        by apply lookup_insert_eq.
      unfold _calcularCuentasContexto.
      by rewrite (ngramCounts_getitem_present (n s2) s2 ∅ Hc2).
Qed.

Lemma derivadas_campos self :
  let s := _calcularCuentasContexto (_calcularCuentasContinuacion self) in
  let c := default ∅ (ngramCounts self !! n self) in
  n s = n self /\ descuento s = descuento self
  /\ unigramCounts s = unigramCounts self
  /\ totalNgrams s = totalNgrams self /\ totalUnigrams s = totalUnigrams self
  /\ (forall k, default ∅ (ngramCounts s !! k) = default ∅ (ngramCounts self !! k))
  /\ cuentasContinuacion s
     = fold_left (fun acc g => Counter.incr acc (Py.slice_from 1 g))
         (Counter.keys c) (cuentasContinuacion self)
  /\ cuentasContexto s
     = fold_left (fun acc g => Counter.incr acc (Py.slice_but_last g))
         (Counter.keys c) (cuentasContexto self).
Proof.
  cbv zeta. destruct (derivadas_forma self) as (d & Hd & ->). simpl.
  by repeat split.
Qed.

Lemma ngramas_longitud order tokens g :
  g ∈ ngramas order tokens -> Z.of_nat (length g) = order.
Proof.
  intros Hin. destruct (decide (1 <= order)) as [Ho|Ho].
  - rewrite ngramas_ventanas in Hin by done. unfold ventanas_contiguas in Hin.
    apply list_elem_of_fmap in Hin as (i & -> & Hi).
    apply elem_of_seq in Hi. rewrite length_take, length_drop. lia.
  - rewrite ngramas_orden_bajo in Hin by lia. by apply not_elem_of_nil in Hin.
Qed.

Lemma ngramas_del_corpus_longitud order corpus0 g :
  g ∈ ngramas_del_corpus order corpus0 -> Z.of_nat (length g) = order.
Proof.
  unfold ngramas_del_corpus. intros Hin.
  apply list_elem_of_bind in Hin as (o & Hg & _).
  by apply ngramas_longitud in Hg.
Qed.

(** A loop that adds 1 at [f g] for each [g] of a list adds, at a key, the
    number of items that point to it. *)
Lemma get_fold_incr_cuenta {G} (f : G -> list string) (gs : list G)
  (c : gmap (list string) Z) (k : list string) :
  Counter.get (fold_left (fun acc x => Counter.incr acc (f x)) gs c) k
  = Counter.get c k + Z.of_nat (length (filter (fun x => f x = k) gs)).
Proof.
  revert c. induction gs as [|x gs IH]; intros c; simpl; [lia|].
  rewrite IH, filter_cons. destruct (decide (f x = k)) as [<-|Hne].
  - rewrite get_incr_eq. simpl. lia.
  - rewrite get_incr_ne by done. lia.
Qed.

(** The keys of the table of the configured order are the distinct n-grams
    of the corpus, up to the order they are walked in. *)
Lemma keys_tipos (d : gmap Z (gmap (list string) Z)) vistos order :
  tabla_de d vistos ->
  (forall g, g ∈ vistos -> Z.of_nat (length g) = order) ->
  Counter.keys (default ∅ (d !! order)) ≡ₚ remove_dups vistos.
Proof.
  intros Htab Hlen. apply NoDup_Permutation.
  - apply NoDup_fst_map_to_list.
  - apply NoDup_remove_dups.
  - intros g. rewrite elem_of_keys, elem_of_remove_dups, (Htab order g).
    case_decide as Hd.
    + split; [by intros _; apply Hd | by eexists].
    + split; [by intros [? ?] | intros Hin; destruct Hd; split; auto].
Qed.

(** The engine construction returns, table by table, in terms of the
    tokens and the windows of the corpus. *)
Lemma construir_tablas corpus0 order D :
  let self := construir corpus0 order D in
  n self = order
  /\ tabla_de (ngramCounts self) (ngramas_del_corpus order corpus0)
  /\ totalNgrams self = Z.of_nat (length (ngramas_del_corpus order corpus0))
  /\ totalUnigrams self = Z.of_nat (length (tokens_del_corpus corpus0))
  /\ (forall w, Counter.get (unigramCounts self) w
                = ocurrencias w (tokens_del_corpus corpus0))
  /\ (forall s, Counter.get (cuentasContinuacion self) s
                = Z.of_nat (length (filter (fun g => Py.slice_from 1 g = s)
                                      (tipos_del_corpus order corpus0))))
  /\ (forall p, Counter.get (cuentasContexto self) p
                = Z.of_nat (length (filter (fun g => Py.slice_but_last g = p)
                                      (tipos_del_corpus order corpus0)))).
Proof.
  cbv zeta. unfold construir.
  set (s0 := atributos_iniciales order D).
  destruct (_calcularFrecuencias_tabla corpus0 s0 [] tabla_de_inicial)
    as (Htab & Htn & Htu & Hw).
  destruct (_calcularFrecuencias_marco corpus0 s0) as (Hn1 & _ & Hctx1 & Hcont1).
  set (s1 := _calcularFrecuencias corpus0 s0) in *.
  destruct (derivadas_campos s1) as (Hn & _ & Hu & Htn' & Htu' & Hd & Hcont & Hctx).
  set (s3 := _calcularCuentasContexto _) in *.
  simpl in Htab, Htn, Htu, Hn1.
  assert (Hkeys : Counter.keys (default ∅ (ngramCounts s1 !! n s1))
                  ≡ₚ tipos_del_corpus order corpus0).
  { rewrite Hn1. apply keys_tipos; [done|].
    intros g. apply ngramas_del_corpus_longitud. }
  split; [congruence|]. split; [|split; [lia|split; [lia|split; [|split]]]].
  - intros k g. rewrite Hd. apply Htab.
  - intros w. rewrite Hu, Hw. simpl. rewrite get_empty. lia.
  - intros s. rewrite Hcont, get_fold_incr_cuenta, Hcont1. simpl.
    rewrite get_empty, Hkeys. lia.
  - intros p. rewrite Hctx, get_fold_incr_cuenta, Hctx1. simpl.
    rewrite get_empty, Hkeys. lia.
Qed.

End Derivadas.

(** ** The counting tables, table by table *)

(** X1.  After construction [unigramCounts[w]] is the number of occurrences
    of [w] among the whitespace tokens of all sentences of the corpus, and
    [totalUnigrams] is the number of those tokens. *)
Theorem X1_unigramas_cuentan_ocurrencias (corpus0 : list string) (order : Z)
  (D : Q) (w : string) :
  let self := construir corpus0 order D in
  Counter.get (unigramCounts self) w = ocurrencias w (tokens_del_corpus corpus0)
  /\ totalUnigrams self = Z.of_nat (length (tokens_del_corpus corpus0)).
Proof.
  cbv zeta.
  destruct (construir_tablas corpus0 order D) as (_ & _ & _ & Htu & Hw & _).
  split; [apply Hw | apply Htu].
Qed.

(** X2.  After construction [ngramCounts[n][g]] is the number of times [g]
    is visited as a window of the configured order [n] of a sentence of the
    corpus; every other order of the table reads 0 for every tuple; and
    [totalNgrams] is the number of windows visited. *)
Theorem X2_ngramas_cuentan_ventanas (corpus0 : list string) (order : Z)
  (D : Q) (g : list string) :
  let self := construir corpus0 order D in
  ngram_count self order g = ocurrencias g (ngramas_del_corpus order corpus0)
  /\ (forall k, k <> order -> ngram_count self k g = 0)
  /\ totalNgrams self = Z.of_nat (length (ngramas_del_corpus order corpus0)).
Proof.
  cbv zeta.
  destruct (construir_tablas corpus0 order D) as (_ & Htab & Htn & _).
  split; [|split; [|done]].
  - unfold ngram_count, Counter.get. rewrite (Htab order g).
    case_decide as Hd; [done|]. simpl.
    rewrite ocurrencias_fuera; [done|]. intros Hin. apply Hd.
    split; [|done]. by apply ngramas_del_corpus_longitud in Hin.
  - intros k Hk. unfold ngram_count, Counter.get. rewrite (Htab k g).
    case_decide as Hd; [|done]. destruct Hd as [Hl Hin].
    apply ngramas_del_corpus_longitud in Hin. congruence.
Qed.

(** X3.  For an order [n >= 1] a sentence of [L] tokens contributes
    [max(L - n + 1, 0)] windows; the window at position [i] is
    [tokens[i:i+n]] and has exactly [n] tokens. *)
Theorem X3_ventanas_de_una_oracion (order : Z) (tokens : list string) :
  1 <= order ->
  length (ngramas order tokens)
  = Z.to_nat (Z.of_nat (length tokens) - order + 1)
  /\ forall i g, ngramas order tokens !! i = Some g ->
       g = take (Z.to_nat order) (drop i tokens)
       /\ Z.of_nat (length g) = order.
Proof.
  intros Ho. rewrite ngramas_ventanas by done. unfold ventanas_contiguas.
  split.
  - rewrite length_fmap, length_seq. lia.
  - intros i g Hi. apply list_lookup_fmap_Some in Hi as (j & -> & Hj).
    apply lookup_seq in Hj as [-> Hlt]. simpl.
    split; [done|]. rewrite length_take, length_drop. lia.
Qed.

(** X3 on the first sentence of the demo corpus, as bigrams. *)
Lemma X3_testigo :
  length (ngramas 2 (Py.split "el gato come pescado")) = 3%nat
  /\ forall i g,
       ngramas 2 (Py.split "el gato come pescado") !! i = Some g ->
       g = take 2 (drop i (Py.split "el gato come pescado"))
       /\ Z.of_nat (length g) = 2.
Proof.
  apply (X3_ventanas_de_una_oracion 2 (Py.split "el gato come pescado")).
  lia.
Defined.

(** X4.  After construction [cuentasContinuacion[s]] is the number of
    distinct n-grams of the corpus whose tail (all tokens but the first) is
    [s]: one per n-gram type, whatever its number of occurrences. *)
Theorem X4_continuacion_cuenta_tipos (corpus0 : list string) (order : Z)
  (D : Q) (s : list string) :
  Counter.get (cuentasContinuacion (construir corpus0 order D)) s
  = Z.of_nat (length (filter (fun g => Py.slice_from 1 g = s)
                        (tipos_del_corpus order corpus0))).
Proof.
  destruct (construir_tablas corpus0 order D) as (_&_&_&_&_& Hcont & _).
  apply Hcont.
Qed.

(** X5.  After construction [cuentasContexto[p]] is the number of distinct
    n-grams of the corpus whose prefix (all tokens but the last) is [p]; it
    is not the number of occurrences of [p] as a context. *)
Theorem X5_contexto_cuenta_tipos (corpus0 : list string) (order : Z)
  (D : Q) (p : list string) :
  Counter.get (cuentasContexto (construir corpus0 order D)) p
  = Z.of_nat (length (filter (fun g => Py.slice_but_last g = p)
                        (tipos_del_corpus order corpus0))).
Proof.
  destruct (construir_tablas corpus0 order D) as (_&_&_&_&_&_& Hctx).
  apply Hctx.
Qed.

(** ** Totals *)

Section Sumas.
Implicit Types (self : Engine) (ngram : list string).

Lemma suma_insert {K} `{Countable K} (c : gmap K Z) k v :
  c !! k = None -> suma_cuentas (<[k := v]> c) = v + suma_cuentas c.
Proof.
  intros Hk. unfold suma_cuentas.
  rewrite map_fold_insert_L; [done | intros; lia | done].
Qed.

Lemma suma_incr {K} `{Countable K} (c : gmap K Z) k :
  suma_cuentas (Counter.incr c k) = suma_cuentas c + 1.
Proof.
  unfold Counter.incr, Counter.get. destruct (c !! k) as [v|] eqn:Hk; simpl.
  - rewrite <- insert_delete_eq, suma_insert by apply lookup_delete_eq.
    unfold suma_cuentas.
    rewrite (map_fold_delete_L _ _ k v c); [lia | intros; lia | done].
  - rewrite suma_insert by done. lia.
Qed.

Lemma suma_update (c : gmap string Z) ks :
  suma_cuentas (Counter.update c ks) = suma_cuentas c + Z.of_nat (length ks).
Proof.
  unfold Counter.update. revert c.
  induction ks as [|k ks IH]; intros c; simpl; [lia|].
  rewrite IH, suma_incr. lia.
Qed.

Lemma suma_empty {K} `{Countable K} : suma_cuentas (∅ : gmap K Z) = 0.
Proof. unfold suma_cuentas. apply map_fold_empty. Qed.

Lemma _calcularFrecuencias_suma_unigramas corpus0 :
  forall self,
    suma_cuentas (unigramCounts (_calcularFrecuencias corpus0 self))
    = suma_cuentas (unigramCounts self)
      + Z.of_nat (length (tokens_del_corpus corpus0)).
Proof.
  unfold _calcularFrecuencias, tokens_del_corpus.
  induction corpus0 as [|o os IH]; intros self.
  - simpl. lia.
  - change (fold_left contar_oracion (o :: os) self)
      with (fold_left contar_oracion os (contar_oracion self o)).
    rewrite IH, bind_cons, length_app, contar_oracion_unigramas, suma_update.
    lia.
Qed.

(** The sum of the counts filed under order [k]. *)
Lemma contar_ngram_suma self ngram k :
  suma_cuentas (default ∅ (ngramCounts (contar_ngram self ngram) !! k))
  = suma_cuentas (default ∅ (ngramCounts self !! k))
    + (if decide (Z.of_nat (length ngram) = k) then 1 else 0).
Proof.
  unfold contar_ngram. simpl. case_decide as Hk.
  - subst k. rewrite lookup_insert_eq. simpl. apply suma_incr.
  - rewrite lookup_insert_ne by done. lia.
Qed.

Lemma fold_contar_ngram_suma ngrams k :
  (forall g, g ∈ ngrams -> Z.of_nat (length g) = k) ->
  forall self,
    suma_cuentas (default ∅ (ngramCounts (fold_left contar_ngram ngrams self) !! k))
    = suma_cuentas (default ∅ (ngramCounts self !! k))
      + Z.of_nat (length ngrams).
Proof.
  induction ngrams as [|g gs IH]; intros Hlen self; simpl; [lia|].
  rewrite IH by (intros g' Hg'; apply Hlen; by apply list_elem_of_further).
  rewrite contar_ngram_suma.
  rewrite decide_True by (apply Hlen, list_elem_of_here). lia.
Qed.

Lemma _calcularFrecuencias_suma_ngramas corpus0 :
  forall self,
    suma_cuentas
      (default ∅ (ngramCounts (_calcularFrecuencias corpus0 self) !! n self))
    = suma_cuentas (default ∅ (ngramCounts self !! n self))
      + Z.of_nat (length (ngramas_del_corpus (n self) corpus0)).
Proof.
  unfold _calcularFrecuencias, ngramas_del_corpus.
  induction corpus0 as [|o os IH]; intros self.
  - simpl. lia.
  - change (fold_left contar_oracion (o :: os) self)
      with (fold_left contar_oracion os (contar_oracion self o)).
    destruct (contar_oracion_marco self o) as (Hord & _).
    rewrite <- Hord at 1. rewrite IH, Hord, bind_cons, length_app.
    unfold contar_oracion at 1. cbv zeta.
    set (s0 := set_unigramCounts _ _).
    rewrite (fold_contar_ngram_suma _ (n self))
      by (intros g; apply ngramas_longitud).
    change (ngramCounts s0) with (ngramCounts self).
    change (n s0) with (n self). lia.
Qed.

End Sumas.

(** X6.  After construction the counts of [unigramCounts] add up to
    [totalUnigrams], and the counts filed under the configured order in
    [ngramCounts] add up to [totalNgrams]. *)
Theorem X6_las_cuentas_suman_los_totales (corpus0 : list string) (order : Z)
  (D : Q) :
  let self := construir corpus0 order D in
  suma_cuentas (unigramCounts self) = totalUnigrams self
  /\ suma_cuentas (default ∅ (ngramCounts self !! order)) = totalNgrams self.
Proof.
  cbv zeta.
  destruct (construir_tablas corpus0 order D) as (_ & _ & Htn & Htu & _).
  rewrite Htn, Htu. unfold construir.
  set (s0 := atributos_iniciales order D).
  destruct (derivadas_campos (_calcularFrecuencias corpus0 s0))
    as (_ & _ & Hu & _ & _ & Hd & _).
  rewrite Hu, Hd.
  rewrite _calcularFrecuencias_suma_unigramas.
  pose proof (_calcularFrecuencias_suma_ngramas corpus0 s0) as Hng.
  change (n s0) with order in Hng. rewrite Hng.
  simpl. rewrite lookup_empty. simpl. rewrite suma_empty.
  split; [lia|]. unfold suma_cuentas. rewrite map_fold_empty. lia.
Qed.

(** ** Bounds *)

Section Cotas.
Implicit Types (self : Engine) (g ngram : list string) (w : string).

Lemma length_remove_dups {A} `{EqDecision A} (l : list A) :
  (length (remove_dups l) <= length l)%nat.
Proof.
  induction l as [|x l IH]; simpl; [done|].
  destruct (decide_rel elem_of x l); simpl; lia.
Qed.

Lemma inject_Z_pos b : 0 < b -> (0 < inject_Z b)%Q.
Proof. intros Hb. unfold Qlt. simpl. lia. Qed.

Lemma inject_Z_no_neg a : 0 <= a -> (0 <= inject_Z a)%Q.
Proof. intros Ha. unfold Qle. simpl. lia. Qed.

Lemma Q_cociente_rango a b :
  0 <= a <= b -> 0 < b -> (0 <= inject_Z a / inject_Z b <= 1)%Q.
Proof.
  intros [Ha Hab] Hb. pose proof (inject_Z_pos b Hb) as Hb'. split.
  - apply Qle_shift_div_l; [done|]. rewrite Qmult_0_l.
    by apply inject_Z_no_neg.
  - apply Qle_shift_div_r; [done|]. rewrite Qmult_1_l. by rewrite <- Zle_Qle.
Qed.

Lemma Q_div_no_neg x b : (0 <= x)%Q -> 0 < b -> (0 <= x / inject_Z b)%Q.
Proof.
  intros Hx Hb. apply Qle_shift_div_l; [by apply inject_Z_pos|].
  by rewrite Qmult_0_l.
Qed.

Lemma max0_no_neg x : (0 <= Py.max0 x)%Q.
Proof.
  unfold Py.max0. destruct (Qle_bool 0 x) eqn:E.
  - by apply Qle_bool_iff.
  - apply Qle_refl.
Qed.

(** Every count of a constructed engine lies between 0 and its total. *)
Lemma construir_cotas corpus0 order D :
  let self := construir corpus0 order D in
  0 <= totalNgrams self /\ 0 <= totalUnigrams self
  /\ (forall w, 0 <= Counter.get (unigramCounts self) w <= totalUnigrams self)
  /\ (forall s, 0 <= Counter.get (cuentasContinuacion self) s <= totalNgrams self)
  /\ (forall p, 0 <= Counter.get (cuentasContexto self) p <= totalNgrams self).
Proof.
  cbv zeta.
  destruct (construir_tablas corpus0 order D)
    as (_ & _ & Htn & Htu & Hw & Hcont & Hctx).
  rewrite Htn, Htu. split; [lia|]. split; [lia|]. split; [|split].
  - intros w. rewrite Hw.
    pose proof (ocurrencias_no_neg w (tokens_del_corpus corpus0)).
    pose proof (ocurrencias_le w (tokens_del_corpus corpus0)). lia.
  - intros s. rewrite Hcont. unfold tipos_del_corpus.
    pose proof (length_filter (fun g => Py.slice_from 1 g = s)
                  (remove_dups (ngramas_del_corpus order corpus0))).
    pose proof (length_remove_dups (ngramas_del_corpus order corpus0)). lia.
  - intros p. rewrite Hctx. unfold tipos_del_corpus.
    pose proof (length_filter (fun g => Py.slice_but_last g = p)
                  (remove_dups (ngramas_del_corpus order corpus0))).
    pose proof (length_remove_dups (ngramas_del_corpus order corpus0)). lia.
Qed.

End Cotas.

(** X7.  On a constructed engine with tokens and n-grams counted, the two
    paths that do not interpolate return a probability: the unigram base
    case and the continuation fallback (context count 0) both return a value
    between 0 and 1. *)
Theorem X7_base_y_respaldo_en_rango (corpus0 : list string) (order : Z)
  (D : Q) (ngram : list string) :
  let self := construir corpus0 order D in
  0 < totalUnigrams self -> 0 < totalNgrams self ->
  (length ngram = 1%nat
   \/ ((2 <= length ngram)%nat
       /\ Counter.get (cuentasContexto self) (Py.slice_but_last ngram) = 0)) ->
  exists p, probabilidad self ngram = Ok p /\ (0 <= p <= 1)%Q.
Proof.
  intros self Hu Hn Hcaso.
  destruct (construir_cotas corpus0 order D) as (_ & _ & Hw & Hcont & _).
  fold self in Hw, Hcont.
  destruct Hcaso as [Huno | [Hlen Hz]].
  - destruct ngram as [|w [|? ?]]; simpl in Huno; try lia.
    rewrite probabilidad_unigrama, truediv_ok by lia.
    eexists. split; [done|]. by apply Q_cociente_rango.
  - destruct (last_is_Some ngram) as [word Hword];
      [intros ->; simpl in Hlen; lia|].
    rewrite (probabilidad_superior _ _ word) by done. cbv zeta.
    rewrite Hz. change (0 =? 0) with true. cbv iota.
    rewrite truediv_ok by lia.
    eexists. split; [done|]. by apply Q_cociente_rango.
Qed.

(** X7 on the demo engine and a bigram whose first word never opens one. *)
Lemma X7_testigo :
  exists p, probabilidad kneserNey ["pescado"; "el"]%string = Ok p
            /\ (0 <= p <= 1)%Q.
Proof.
  apply (X7_base_y_respaldo_en_rango corpus 2 (3 # 4) ["pescado"; "el"]%string).
  - vm_compute. reflexivity.
  - vm_compute. reflexivity.
  - right. split; [simpl; lia | vm_compute; reflexivity].
Defined.

(** X8.  On a constructed engine with a discount [D >= 0], whatever value
    [probability] returns is not negative, for every tuple. *)
Theorem X8_probabilidad_no_negativa (corpus0 : list string) (order : Z)
  (D : Q) (ngram : list string) (p : Q) :
  (0 <= D)%Q ->
  probabilidad (construir corpus0 order D) ngram = Ok p ->
  (0 <= p)%Q.
Proof.
  intros HD.
  destruct (construir_cotas corpus0 order D) as (Htn & Htu & Hw & Hcont & Hctx).
  destruct (construir_config corpus0 order D) as [_ Hdesc].
  set (self := construir corpus0 order D) in *.
  revert p. induction ngram as [|w resto IH]; intros p Hp; [done|].
  destruct resto as [|w' rest].
  - rewrite probabilidad_unigrama in Hp. unfold Py.truediv in Hp.
    destruct (Z.eqb_spec (totalUnigrams self) 0) as [?|Hne]; [done|].
    injection Hp as <-. apply Q_cociente_rango; [apply Hw | lia].
  - destruct (last_is_Some (w :: w' :: rest)) as [word Hword]; [done|].
    rewrite (probabilidad_superior _ _ word) in Hp by (simpl; lia || done).
    cbv zeta in Hp.
    set (pc := Counter.get (cuentasContexto self) _) in *.
    destruct (Z.eqb_spec pc 0) as [Hz|Hnz].
    + unfold Py.truediv in Hp.
      destruct (Z.eqb_spec (totalNgrams self) 0) as [?|Hne]; [done|].
      injection Hp as <-. apply Q_cociente_rango; [apply Hcont | lia].
    + change (Py.slice_from 1 (w :: w' :: rest)) with (w' :: rest) in Hp.
      destruct (probabilidad self (w' :: rest)) as [lower|x]; [|done].
      injection Hp as <-.
      assert (Hpc : 0 < pc) by (pose proof (Hctx (Py.slice_but_last (w :: w' :: rest))); unfold pc in *; lia).
      rewrite Hdesc.
      replace 0%Q with (0 + 0)%Q by reflexivity.
      apply Qplus_le_compat.
      * apply Q_div_no_neg; [apply max0_no_neg | done].
      * apply Q_div_no_neg; [|done].
        apply Qmult_le_0_compat; [done | by apply IH].
Qed.

(** X8 on the demo engine and the bigram whose value exceeds 1. *)
Lemma X8_testigo : (0 <= 1368 # 1152)%Q.
Proof.
  apply (X8_probabilidad_no_negativa corpus 2 (3 # 4) ["el"; "perro"]%string).
  - vm_compute. discriminate.
  - vm_compute. reflexivity.
Defined.

(** ** How deep the recursion goes on a constructed engine *)

Section UnNivel.
Implicit Types (self e : Engine) (g ngram t : list string) (w : string).

Lemma limitada_paso limite w w' rest self :
  _probabilidadCondicional_limitada (S limite) (w :: w' :: rest) self
  = match Py.getitem_last (w :: w' :: rest) with
    | Raise x => Some (self, Raise x)
    | Ok word =>
        let prefixCount :=
          Counter.get (cuentasContexto self)
            (Py.slice_but_last (w :: w' :: rest)) in
        if prefixCount =? 0 then Some (_probabilidadContinuacion word self)
        else
          match leer_ngramCount (w :: w' :: rest) self with
          | (self1, Raise x) => Some (self1, Raise x)
          | (self1, Ok ngramCount) =>
              match _probabilidadCondicional_limitada limite
                      (w' :: rest) self1 with
              | None => None
              | Some (self2, Raise x) => Some (self2, Raise x)
              | Some (self2, Ok lowerOrderProb) =>
                  Some (interpolar ngramCount prefixCount lowerOrderProb self2)
              end
          end
    end.
Proof. reflexivity. Qed.

(** With no nested call allowed the method still returns on a tuple of at
    most one token and on a tuple whose context count is 0. *)
Lemma limitada_0_sin_contexto e t :
  (length t <= 1)%nat
  \/ Counter.get (cuentasContexto e) (Py.slice_but_last t) = 0 ->
  _probabilidadCondicional_limitada 0 t e = Some (_probabilidadCondicional t e).
Proof.
  intros Hcaso. destruct t as [|w [|w' rest]]; [done | done |].
  destruct Hcaso as [Hlen | Hz]; [simpl in Hlen; lia|].
  destruct (last_is_Some (w :: w' :: rest)) as [word Hword]; [done|].
  rewrite (limitada_sin_recursion _ word) by (simpl; lia || done).
  rewrite _probabilidadCondicional_paso by done. cbv zeta. rewrite Hz.
  change (0 =? 0) with true. cbv iota. do 3 f_equal.
  rewrite last_cons in Hword. destruct (last (w' :: rest)); simpl; congruence.
Qed.

Lemma entrenado_leer self ngram :
  entrenado self -> (2 <= length ngram)%nat ->
  Counter.get (cuentasContexto self) (Py.slice_but_last ngram) <> 0 ->
  leer_ngramCount ngram self
  = (self, Ok (ngram_count self (Z.of_nat (length ngram)) ngram)).
Proof.
  intros Hent Hlen Hnz.
  destruct (entrenado_contexto self ngram Hent Hlen Hnz) as (Hn & _).
  destruct Hent as (_ & [c Hc] & _).
  unfold leer_ngramCount, ngram_count. rewrite Hn.
  by rewrite (ngramCounts_getitem_present _ _ c Hc), Hc.
Qed.

(** On a trained engine the tail of a tuple that reaches the formula has a
    context count of 0, unless it is a single token. *)
Lemma entrenado_cola self w w' rest :
  entrenado self ->
  Counter.get (cuentasContexto self) (Py.slice_but_last (w :: w' :: rest)) <> 0 ->
  (length (w' :: rest) <= 1)%nat
  \/ Counter.get (cuentasContexto self) (Py.slice_but_last (w' :: rest)) = 0.
Proof.
  intros Hent Hnz. destruct rest as [|w'' rest']; [left; simpl; lia|]. right.
  destruct (decide (Counter.get (cuentasContexto self)
                      (Py.slice_but_last (w' :: w'' :: rest')) = 0))
    as [?|Hnz']; [done|].
  destruct (entrenado_contexto self (w :: w' :: w'' :: rest') Hent) as (H1 & _);
    [simpl; lia | done |].
  destruct (entrenado_contexto self (w' :: w'' :: rest') Hent) as (H2 & _);
    [simpl; lia | done |].
  simpl in H1, H2. lia.
Qed.

Lemma entrenado_un_nivel self ngram :
  entrenado self ->
  _probabilidadCondicional_limitada 1 ngram self
  = Some (_probabilidadCondicional ngram self).
Proof.
  intros Hent. destruct ngram as [|w [|w' rest]];
    [by apply limitada_suficiente; simpl; lia
    |by apply limitada_suficiente; simpl; lia|].
  rewrite limitada_paso, _probabilidadCondicional_paso by done. cbv zeta.
  assert (Hlast : Py.getitem_last (w :: w' :: rest)
                  = Ok (default w (last (w' :: rest)))).
  { unfold Py.getitem_last. rewrite last_cons. by destruct (last (w' :: rest)). }
  rewrite Hlast.
  destruct (Z.eqb_spec (Counter.get (cuentasContexto self)
              (Py.slice_but_last (w :: w' :: rest))) 0) as [Hz|Hnz]; [done|].
  rewrite (entrenado_leer self (w :: w' :: rest)) by (simpl; lia || done).
  simpl fst.
  rewrite limitada_0_sin_contexto by (by apply (entrenado_cola self w)).
  destruct (_probabilidadCondicional (w' :: rest) self) as [self2 [lower|x]];
    [|done].
  by rewrite interpolar_ok.
Qed.

End UnNivel.

(** X9.  On a constructed engine the recursion never goes deeper than one
    nested call, whatever the length of the tuple and the order: only
    tuples of the configured order have a context count other than 0, and
    their tail is either a single token or a tuple with context count 0. *)
Theorem X9_un_solo_nivel_de_recursion (corpus0 : list string) (order : Z)
  (D : Q) (ngram : list string) :
  _probabilidadCondicional_limitada 1 ngram (construir corpus0 order D)
  = Some (obtenerProbabilidad ngram (construir corpus0 order D)).
Proof. apply entrenado_un_nivel, construir_entrenado. Qed.

(** ** Orders other than 2 *)

Section OtrosOrdenes.
Implicit Types (self : Engine) (g ngram : list string) (w : string).

Lemma filter_ninguno {A} (P : A -> Prop) `{forall x, Decision (P x)} (l : list A) :
  (forall x, x ∈ l -> ~ P x) -> filter P l = [].
Proof.
  induction l as [|x l IH]; intros Hno; [done|].
  rewrite filter_cons, decide_False by (apply Hno, list_elem_of_here).
  apply IH. intros y Hy. apply Hno. by apply list_elem_of_further.
Qed.

(** Continuation counts are filed under tails of [n - 1] tokens: a
    single-word key is counted only when the order is 2. *)
Lemma continuacion_palabra_cero corpus0 order D w :
  order <> 2 ->
  Counter.get (cuentasContinuacion (construir corpus0 order D)) [w] = 0.
Proof.
  intros Ho.
  destruct (construir_tablas corpus0 order D) as (_&_&_&_&_& Hcont & _).
  rewrite Hcont, filter_ninguno; [done|].
  intros g Hg Heq. unfold tipos_del_corpus in Hg.
  rewrite elem_of_remove_dups in Hg.
  apply ngramas_del_corpus_longitud in Hg.
  apply (f_equal length) in Heq. unfold Py.slice_from in Heq.
  rewrite length_drop in Heq. simpl in Heq. lia.
Qed.

End OtrosOrdenes.

(** X10.  On an engine constructed with an order other than 2, no single
    word has a continuation count, so the continuation fallback is 0: every
    tuple of two tokens or more whose context count is 0 gets 0 whenever a
    value is returned. *)
Theorem X10_respaldo_nulo_fuera_de_bigramas (corpus0 : list string)
  (order : Z) (D : Q) :
  order <> 2 ->
  let self := construir corpus0 order D in
  (forall w, Counter.get (cuentasContinuacion self) [w] = 0)
  /\ forall ngram p,
       (2 <= length ngram)%nat ->
       Counter.get (cuentasContexto self) (Py.slice_but_last ngram) = 0 ->
       probabilidad self ngram = Ok p -> (p == 0)%Q.
Proof.
  intros Ho self. split; [intros w; by apply continuacion_palabra_cero|].
  intros ngram p Hlen Hz Hp.
  destruct (last_is_Some ngram) as [word Hword];
    [intros ->; simpl in Hlen; lia|].
  rewrite (probabilidad_superior _ _ word) in Hp by done. cbv zeta in Hp.
  rewrite Hz in Hp. change (0 =? 0) with true in Hp. cbv iota in Hp.
  unfold self in Hp. rewrite continuacion_palabra_cero in Hp by done.
  unfold Py.truediv in Hp. destruct (_ =? 0); [done|].
  injection Hp as <-. unfold Qdiv. apply Qmult_0_l.
Qed.

(** X10 on the demo corpus counted as trigrams. *)
Lemma X10_testigo :
  (forall w, Counter.get (cuentasContinuacion (construir corpus 3 (3 # 4))) [w] = 0)
  /\ forall ngram p,
       (2 <= length ngram)%nat ->
       Counter.get (cuentasContexto (construir corpus 3 (3 # 4)))
         (Py.slice_but_last ngram) = 0 ->
       probabilidad (construir corpus 3 (3 # 4)) ngram = Ok p -> (p == 0)%Q.
Proof.
  apply (X10_respaldo_nulo_fuera_de_bigramas corpus 3 (3 # 4)). lia.
Defined.

(** X11.  On an engine constructed with an order of 3 or more, a tuple
    whose context count is positive gets exactly the discounted term
    [max(ngramCount - D, 0) / prefixCount]: the lower-order estimate it
    interpolates with is always 0. *)
Theorem X11_sin_masa_de_respaldo_desde_trigramas (corpus0 : list string)
  (order : Z) (D : Q) (ngram : list string) :
  3 <= order ->
  let self := construir corpus0 order D in
  let prefixCount :=
    Counter.get (cuentasContexto self) (Py.slice_but_last ngram) in
  let ngramCount := ngram_count self (Z.of_nat (length ngram)) ngram in
  (2 <= length ngram)%nat -> 0 < prefixCount ->
  exists lowerOrderProb p,
    probabilidad self (Py.slice_from 1 ngram) = Ok lowerOrderProb
    /\ (lowerOrderProb == 0)%Q
    /\ probabilidad self ngram = Ok p
    /\ (p == Py.max0 (inject_Z ngramCount - D) / inject_Z prefixCount)%Q.
Proof.
  intros Ho self prefixCount ngramCount Hlen Hpos.
  pose proof (construir_entrenado corpus0 order D) as Hent.
  destruct (construir_config corpus0 order D) as [Hn HD].
  fold self in Hent, Hn, HD.
  destruct (entrenado_contexto self ngram Hent Hlen) as (Hlong & Htn & _);
    [unfold prefixCount in Hpos; lia|].
  destruct ngram as [|w [|w' [|w'' rest]]]; simpl in Hlen, Hlong; try lia.
  assert (Hzt : Counter.get (cuentasContexto self)
                  (Py.slice_but_last (w' :: w'' :: rest)) = 0).
  { destruct (entrenado_cola self w w' (w'' :: rest) Hent) as [Hl|Hz];
      [unfold prefixCount in Hpos; lia | simpl in Hl; lia | done]. }
  set (t := w' :: w'' :: rest) in *.
  destruct (last_is_Some t) as [word Hword]; [done|].
  assert (Hlower : probabilidad self t = Ok (inject_Z 0 / inject_Z (totalNgrams self))%Q).
  { rewrite (probabilidad_superior _ _ word) by (simpl; lia || done).
    cbv zeta. rewrite Hzt. change (0 =? 0) with true. cbv iota.
    unfold self. rewrite continuacion_palabra_cero by lia.
    apply truediv_ok. fold self. lia. }
  assert (Hcero : (inject_Z 0 / inject_Z (totalNgrams self) == 0)%Q)
    by (unfold Qdiv; apply Qmult_0_l).
  destruct (last_is_Some (w :: t)) as [word' Hword']; [done|].
  exists (inject_Z 0 / inject_Z (totalNgrams self))%Q. eexists.
  split; [done|]. split; [done|]. split.
  - rewrite (probabilidad_superior _ _ word') by (simpl; lia || done).
    cbv zeta. fold prefixCount.
    destruct (Z.eqb_spec prefixCount 0) as [?|_]; [lia|].
    change (Py.slice_from 1 (w :: t)) with t. rewrite Hlower, HD. reflexivity.
  - fold ngramCount. rewrite Hcero.
    unfold Qdiv at 2. rewrite Qmult_0_r, Qmult_0_l. apply Qplus_0_r.
Qed.

(** X11 on the demo corpus counted as trigrams, at ("el", "gato", "come"). *)
Lemma X11_testigo :
  exists lowerOrderProb p,
    probabilidad (construir corpus 3 (3 # 4)) ["gato"; "come"]%string
    = Ok lowerOrderProb
    /\ (lowerOrderProb == 0)%Q
    /\ probabilidad (construir corpus 3 (3 # 4)) ["el"; "gato"; "come"]%string
       = Ok p
    /\ (p == Py.max0 (inject_Z 1 - (3 # 4)) / inject_Z 2)%Q.
Proof.
  apply (X11_sin_masa_de_respaldo_desde_trigramas corpus 3 (3 # 4)
           ["el"; "gato"; "come"]%string).
  - lia.
  - simpl. lia.
  - vm_compute. reflexivity.
Defined.

(** ** Queries after queries *)

Section Repeticion.
Implicit Types (self e : Engine) (q : Consulta).

Lemma multiplicar_estado ngrams :
  forall prob e, lecturas_iguales (multiplicar ngrams prob e).1 e.
Proof.
  induction ngrams as [|g gs IH]; intros prob e;
    [apply lecturas_iguales_refl|].
  simpl. unfold bind, obtenerProbabilidad.
  pose proof (_probabilidadCondicional_estado g e) as Hg.
  destruct (_probabilidadCondicional g e) as [e1 [p|x]]; simpl in *; [|done].
  by apply (lecturas_iguales_trans _ e1).
Qed.

Lemma consultar_estado q e : lecturas_iguales (consultar q e).1 e.
Proof.
  destruct q as [ngram|oracion]; simpl.
  - apply _probabilidadCondicional_estado.
  - apply multiplicar_estado.
Qed.

Lemma consultar_valor q e e' :
  lecturas_iguales e e' -> (consultar q e).2 = (consultar q e').2.
Proof.
  intros HR. destruct q as [ngram|oracion]; simpl.
  - by apply _probabilidadCondicional_valor.
  - unfold generarProbabilidadOracion. rewrite !multiplicar_producto.
    destruct HR as (Hn & HR'). rewrite Hn. f_equal.
    apply list_fmap_ext. intros _ g _.
    apply _probabilidadCondicional_valor. by split.
Qed.

Lemma ejecutar_estado qs : forall e, lecturas_iguales (ejecutar qs e).1 e.
Proof.
  induction qs as [|q qs IH]; intros e; [apply lecturas_iguales_refl|].
  simpl. pose proof (consultar_estado q e) as Hq.
  destruct (consultar q e) as [e1 r]. specialize (IH e1).
  destruct (ejecutar qs e1) as [e2 rs]. simpl in *.
  by apply (lecturas_iguales_trans _ e1).
Qed.

End Repeticion.

(** X12.  The value of a query does not depend on the queries issued
    before it, on any engine, trained or not: after any sequence of
    [obtenerProbabilidad] and [generarProbabilidadOracion] calls, a query
    returns (or raises) what it would have on the engine as it was.  The
    only trace a query can leave, an empty Counter under a new order of
    [ngramCounts], is read as count 0, like the missing order. *)
Theorem X12_consultas_sin_memoria (self : Engine) (qs : list Consulta)
  (q : Consulta) :
  (consultar q (ejecutar qs self).1).2 = (consultar q self).2.
Proof. apply consultar_valor, ejecutar_estado. Qed.

Lemma ngramas_del_corpus_orden_bajo order corpus0 :
  order < 1 -> ngramas_del_corpus order corpus0 = [].
Proof.
  intros Ho. unfold ngramas_del_corpus.
  induction corpus0 as [|o os IH]; [done|].
  rewrite bind_cons, IH. by rewrite ngramas_orden_bajo.
Qed.

(** X13.  With an order below 1 no window is ever formed: construction
    counts no n-gram and leaves the continuation and context tables without
    counts, every sentence scores 1.0, and every tuple of two tokens or more
    raises [ZeroDivisionError]. *)
Theorem X13_orden_menor_que_uno (corpus0 : list string) (order : Z) (D : Q) :
  order < 1 ->
  let self := construir corpus0 order D in
  totalNgrams self = 0
  /\ (forall s, Counter.get (cuentasContinuacion self) s = 0)
  /\ (forall p, Counter.get (cuentasContexto self) p = 0)
  /\ (forall oracion, generarProbabilidadOracion oracion self = (self, Ok 1%Q))
  /\ (forall ngram, (2 <= length ngram)%nat ->
        probabilidad self ngram = Raise ZeroDivisionError).
Proof.
  intros Ho self.
  destruct (construir_tablas corpus0 order D)
    as (Hn & _ & Htn & _ & _ & Hcont & Hctx).
  fold self in Hn, Htn, Hcont, Hctx.
  pose proof (ngramas_del_corpus_orden_bajo order corpus0 Ho) as Hnil.
  unfold tipos_del_corpus in Hcont, Hctx. rewrite Hnil in *. simpl in *.
  split; [done|]. split; [done|]. split; [done|]. split.
  - intros oracion. unfold generarProbabilidadOracion.
    by rewrite Hn, ngramas_orden_bajo.
  - intros ngram Hlen.
    destruct (last_is_Some ngram) as [word Hword];
      [intros ->; simpl in Hlen; lia|].
    rewrite (probabilidad_superior _ _ word) by done. cbv zeta.
    rewrite Hctx, Htn. reflexivity.
Qed.

(** X13 on the demo corpus with order 0. *)
Lemma X13_testigo :
  totalNgrams (construir corpus 0 (3 # 4)) = 0
  /\ (forall s, Counter.get (cuentasContinuacion (construir corpus 0 (3 # 4))) s = 0)
  /\ (forall p, Counter.get (cuentasContexto (construir corpus 0 (3 # 4))) p = 0)
  /\ (forall oracion,
        generarProbabilidadOracion oracion (construir corpus 0 (3 # 4))
        = (construir corpus 0 (3 # 4), Ok 1%Q))
  /\ (forall ngram, (2 <= length ngram)%nat ->
        probabilidad (construir corpus 0 (3 # 4)) ngram
        = Raise ZeroDivisionError).
Proof. apply (X13_orden_menor_que_uno corpus 0 (3 # 4)). lia. Defined.


(** * Properties of the backoff variant of [ejemplo.py] *)

Section Ejemplo.
Import KneserNeyLM.
Implicit Types (self lm : LM) (tokens sentence ngram context : list string)
  (word : string).

(** ** Loops *)

Lemma para_cada_invariante {S A} (cuerpo : A -> S -> S * Result unit)
  (P : S -> Prop) (l : list A) :
  (forall x s, P s -> P (cuerpo x s).1) ->
  forall s, P s -> P (para_cada cuerpo l s).1.
Proof.
  intros Hc. induction l as [|x l IH]; intros s Hs; [done|].
  simpl. pose proof (Hc x s Hs) as Hx.
  destruct (cuerpo x s) as [s' [[]|e]]; simpl in *; [by apply IH | done].
Qed.

Lemma para_cada_ok {S A} (cuerpo : A -> S -> S * Result unit)
  (P : S -> Prop) (l : list A) :
  (forall x s, x ∈ l -> P s -> (cuerpo x s).2 = Ok tt /\ P (cuerpo x s).1) ->
  forall s, P s -> (para_cada cuerpo l s).2 = Ok tt /\ P (para_cada cuerpo l s).1.
Proof.
  induction l as [|x l IH]; intros Hc s Hs; [done|].
  simpl. destruct (Hc x s (list_elem_of_here _ _) Hs) as [Hr Hp].
  destruct (cuerpo x s) as [s' r]; simpl in *. subst r.
  apply IH; [|done]. intros y t Hy. apply Hc. by apply list_elem_of_further.
Qed.

Lemma para_cada_lanza {S A} (cuerpo : A -> S -> S * Result unit) (e0 : PyExc)
  (l : list A) :
  (forall x s, (cuerpo x s).2 = Ok tt \/ (cuerpo x s).2 = Raise e0) ->
  (exists x, x ∈ l /\ forall s, (cuerpo x s).2 = Raise e0) ->
  forall s, (para_cada cuerpo l s).2 = Raise e0.
Proof.
  intros Hres. induction l as [|y l IH]; intros (x & Hin & Hx) s.
  - by apply not_elem_of_nil in Hin.
  - simpl. pose proof (Hres y s) as Hy. pose proof (Hx s) as Hxs.
    destruct (cuerpo y s) as [s' r] eqn:E; simpl in *.
    destruct Hy as [->| ->]; [|done].
    apply elem_of_cons in Hin as [->|Hin].
    + rewrite E in Hxs. simpl in Hxs. done.
    + apply IH. by exists x.
Qed.

(** ** Slices *)

Lemma slice_dentro {A} (t : list A) (s e : Z) :
  0 <= s -> s <= e -> e <= Z.of_nat (length t) ->
  slice t s e = take (Z.to_nat (e - s)) (drop (Z.to_nat s) t).
Proof.
  intros Hs Hse He. unfold slice, clamp.
  destruct (Z.ltb_spec s 0); [lia|]. destruct (Z.ltb_spec e 0); [lia|].
  by rewrite !Z.min_l by lia.
Qed.

Lemma slice_desde_el_final {A} (t : list A) (e : Z) :
  slice t (Z.of_nat (length t)) e = [].
Proof.
  unfold slice, clamp.
  destruct (Z.ltb_spec (Z.of_nat (length t)) 0); [lia|].
  rewrite Z.min_id, Nat2Z.id, drop_all. by rewrite take_nil.
Qed.

(** ** One step of training *)

Lemma contar_resultado tokens i self :
  (contar tokens i self).2 = Ok tt \/ (contar tokens i self).2 = Raise IndexError.
Proof.
  unfold contar, Py.getitem_last. destruct (last _); simpl; auto.
Qed.

Lemma contar_config tokens i self :
  n (contar tokens i self).1 = n self
  /\ discount (contar tokens i self).1 = discount self.
Proof. unfold contar. by destruct (Py.getitem_last _). Qed.

(** Inside the sentence a window of [n >= 1] tokens is not empty, so the
    step counts it and does not raise. *)
Lemma contar_dentro tokens i self :
  1 <= n self -> Z.of_nat i + n self <= Z.of_nat (length tokens) ->
  (contar tokens i self).2 = Ok tt.
Proof.
  intros Hn Hi. unfold contar.
  rewrite slice_dentro by lia.
  destruct (last_is_Some (take (Z.to_nat (Z.of_nat i + n self - Z.of_nat i))
                            (drop (Z.to_nat (Z.of_nat i)) tokens)))
    as [word Hw].
  - intros Hnil. apply (f_equal length) in Hnil.
    rewrite length_take, length_drop in Hnil. simpl in Hnil. lia.
  - unfold Py.getitem_last. by rewrite Hw.
Qed.

(** At the position just past the sentence the window is empty and
    [ngram[-1]] raises, whatever the order. *)
Lemma contar_fuera tokens self :
  (contar tokens (length tokens) self).2 = Raise IndexError.
Proof. unfold contar. by rewrite slice_desde_el_final. Qed.

Lemma entrenar_oracion_config sentence self :
  n (entrenar_oracion sentence self).1 = n self.
Proof.
  unfold entrenar_oracion. cbv zeta.
  apply (para_cada_invariante _ (fun s => n s = n self)); [|done].
  intros i s Hs. by rewrite (proj1 (contar_config _ i s)).
Qed.

Lemma entrenar_oracion_ok sentence self :
  1 <= n self -> (entrenar_oracion sentence self).2 = Ok tt.
Proof.
  intros Hn. unfold entrenar_oracion. cbv zeta.
  set (tokens := _ ++ _).
  apply (para_cada_ok (contar tokens) (fun s => n s = n self)); [|done].
  intros i s Hi Hs. split.
  - apply contar_dentro; [lia|]. unfold Py.range in Hi.
    apply elem_of_seq in Hi. lia.
  - by rewrite (proj1 (contar_config _ i s)).
Qed.

Lemma entrenar_oracion_lanza sentence self :
  n self < 1 -> (entrenar_oracion sentence self).2 = Raise IndexError.
Proof.
  intros Hn. unfold entrenar_oracion. cbv zeta.
  set (tokens := _ ++ _).
  apply para_cada_lanza.
  - intros i s. apply contar_resultado.
  - exists (length tokens). split; [|intros s; apply contar_fuera].
    unfold Py.range. apply elem_of_seq. lia.
Qed.

(** ** Training *)

(** X14.  With an order [n >= 1], [train] never raises, on any corpus of
    word lists and from any state of the model (a fresh one or one already
    trained), and it leaves the order and the discount as they were. *)
Theorem X14_train_no_lanza (lm : LM) (corpus0 : list (list string)) :
  1 <= n lm ->
  (train corpus0 lm).2 = Ok tt
  /\ n (train corpus0 lm).1 = n lm.
Proof.
  intros Hn. unfold train.
  apply (para_cada_ok entrenar_oracion (fun s => n s = n lm)); [|done].
  intros sentence s _ Hs. split.
  - apply entrenar_oracion_ok. lia.
  - by rewrite entrenar_oracion_config.
Qed.

(** X14 on the model and the corpus of [main]. *)
Lemma X14_testigo :
  (train corpus (__init__ 2 (3 # 4))).2 = Ok tt
  /\ n (train corpus (__init__ 2 (3 # 4))).1 = 2.
Proof. apply (X14_train_no_lanza (__init__ 2 (3 # 4)) corpus). simpl. lia. Defined.

(** X15.  With an order [n < 1], [train] raises [IndexError] on every
    corpus that has at least one sentence, even an empty one: the loop over
    positions runs past the end of the padded sentence, where
    [tokens[i:i+n]] is empty and [ngram[-1]] fails. *)
Theorem X15_train_orden_bajo_lanza (lm : LM) (corpus0 : list (list string)) :
  n lm < 1 -> corpus0 <> [] ->
  (train corpus0 lm).2 = Raise IndexError.
Proof.
  intros Hn Hne. destruct corpus0 as [|sentence rest]; [done|].
  unfold train. simpl.
  pose proof (entrenar_oracion_lanza sentence lm Hn) as Hs.
  destruct (entrenar_oracion sentence lm) as [s' r]. simpl in Hs. by subst r.
Qed.

(** X15 on the corpus of [main] with order 0. *)
Lemma X15_testigo : (train corpus (__init__ 0 (3 # 4))).2 = Raise IndexError.
Proof.
  apply (X15_train_orden_bajo_lanza (__init__ 0 (3 # 4)) corpus);
    [simpl; lia | discriminate].
Defined.

(** ** What training keeps true *)

Lemma coherente_inicial order D : coherente (__init__ order D).
Proof.
  split; [|split].
  - intros context _. apply lookup_empty.
  - intros context total Hc. simpl in Hc. by rewrite lookup_empty in Hc.
  - intros context c word v Hc. simpl in Hc. by rewrite lookup_empty in Hc.
Qed.

Lemma coherente_get self context word c :
  coherente self -> ngram_counts self !! context = Some c ->
  0 <= Counter.get c word.
Proof.
  intros (_ & _ & H3) Hc. unfold Counter.get.
  destruct (c !! word) as [v|] eqn:Hw; simpl; [|lia].
  destruct (H3 _ _ _ _ Hc Hw). lia.
Qed.

Lemma contar_coherente tokens i self :
  coherente self -> coherente (contar tokens i self).1.
Proof.
  intros Hco. pose proof Hco as (H1 & H2 & H3). unfold contar.
  set (ctx := Py.slice_but_last _).
  destruct (Py.getitem_last _) as [word|e]; [|done]. simpl.
  assert (Hget : Counter.get (context_counts self) ctx
                 = suma_cuentas (default ∅ (ngram_counts self !! ctx))
                 /\ 0 <= Counter.get (context_counts self) ctx).
  { unfold Counter.get. destruct (context_counts self !! ctx) as [t|] eqn:Ht.
    - destruct (H2 _ _ Ht) as (c & -> & <- & Hpos). simpl. lia.
    - rewrite (H1 _ Ht). simpl. unfold suma_cuentas.
      rewrite map_fold_empty. lia. }
  destruct Hget as [Hsuma Hpos].
  split; [|split]; simpl.
  - intros context Hc. unfold Counter.incr in Hc.
    destruct (decide (ctx = context)) as [<-|Hne].
    + by rewrite lookup_insert_eq in Hc.
    + rewrite lookup_insert_ne in Hc by done.
      rewrite lookup_insert_ne by done. by apply H1.
  - intros context total Hc. unfold Counter.incr in Hc.
    destruct (decide (ctx = context)) as [<-|Hne].
    + rewrite lookup_insert_eq in Hc. injection Hc as <-.
      rewrite lookup_insert_eq. eexists. split; [done|].
      rewrite suma_incr. lia.
    + rewrite lookup_insert_ne in Hc by done.
      rewrite lookup_insert_ne by done. by apply H2.
  - intros context c w v Hc Hw.
    destruct (decide (ctx = context)) as [<-|Hne].
    + rewrite lookup_insert_eq in Hc. injection Hc as <-.
      unfold Counter.incr in Hw.
      destruct (decide (word = w)) as [<-|Hnw].
      * rewrite lookup_insert_eq in Hw. injection Hw as <-.
        split; [|apply elem_of_union; left; by apply elem_of_singleton].
        destruct (ngram_counts self !! ctx) as [c0|] eqn:Hc0; simpl.
        -- pose proof (coherente_get self ctx word c0 Hco Hc0). lia.
        -- rewrite get_empty. lia.
      * rewrite lookup_insert_ne in Hw by done.
        destruct (ngram_counts self !! ctx) as [c0|] eqn:Hc0; simpl in Hw.
        -- destruct (H3 _ _ _ _ Hc0 Hw). split; [done | apply elem_of_union; by right].
        -- by rewrite lookup_empty in Hw.
    + rewrite lookup_insert_ne in Hc by done.
      destruct (H3 _ _ _ _ Hc Hw). split; [done | apply elem_of_union; by right].
Qed.

Lemma train_coherente corpus0 self :
  coherente self -> coherente (train corpus0 self).1.
Proof.
  unfold train. apply para_cada_invariante. intros sentence s Hs.
  unfold entrenar_oracion. cbv zeta.
  apply para_cada_invariante; [|done]. intros i t. apply contar_coherente.
Qed.

(** X16.  After training a fresh model, whatever the order and the corpus
    (also when [train] stopped on an exception): a context is a key of
    [context_counts] exactly when it is a key of [ngram_counts]; its count
    there is at least 1 and equals the sum of the counts of the words seen
    after it; every word counted after a context has a count of at least 1
    and is in [vocab]. *)
Theorem X16_tablas_coherentes (order : Z) (D : Q) (corpus0 : list (list string)) :
  let lm := (train corpus0 (__init__ order D)).1 in
  (forall context,
     is_Some (context_counts lm !! context)
     <-> is_Some (ngram_counts lm !! context))
  /\ (forall context total c,
        context_counts lm !! context = Some total ->
        ngram_counts lm !! context = Some c ->
        suma_cuentas c = total /\ 1 <= total)
  /\ (forall context c word v,
        ngram_counts lm !! context = Some c -> c !! word = Some v ->
        1 <= v /\ word ∈ vocab lm).
Proof.
  intros lm.
  destruct (train_coherente corpus0 _ (coherente_inicial order D))
    as (H1 & H2 & H3).
  fold lm in H1, H2, H3. split; [|split; [|done]].
  - intros context. split.
    + intros [total Ht]. destruct (H2 _ _ Ht) as (c & Hc & _). by eexists.
    + intros [c Hc]. destruct (context_counts lm !! context) eqn:Ht; [done|].
      rewrite (H1 _ Ht) in Hc. done.
  - intros context total c Ht Hc.
    destruct (H2 _ _ Ht) as (c' & Hc' & Hs & Hp). by simplify_eq.
Qed.

(** ** Queries on a coherent model *)

Lemma train_discount corpus0 self :
  discount (train corpus0 self).1 = discount self.
Proof.
  unfold train.
  apply (para_cada_invariante _ (fun s => discount s = discount self)); [|done].
  intros sentence s Hs. unfold entrenar_oracion. cbv zeta.
  apply (para_cada_invariante _ (fun t => discount t = discount self)); [|done].
  intros i t Ht. by rewrite (proj2 (contar_config _ i t)).
Qed.

Lemma leer_contador_presente context self c :
  ngram_counts self !! context = Some c -> leer_contador context self = (self, c).
Proof. intros Hc. unfold leer_contador. by rewrite Hc. Qed.

Lemma get_ngram_prob_no_visto self ngram word :
  last ngram = Some word ->
  context_counts self !! Py.slice_but_last ngram = None ->
  get_ngram_prob ngram self
  = (self, Py.truediv 1 (Z.of_nat (size (vocab self)))).
Proof.
  intros Hw Hc. unfold get_ngram_prob, Py.getitem_last. by rewrite Hw, Hc.
Qed.

Lemma get_context_prob_visto self context word total c :
  context_counts self !! context = Some total ->
  ngram_counts self !! context = Some c -> total <> 0 ->
  get_context_prob context word self
  = (self, Ok (inject_Z (Counter.get c word) / inject_Z total)%Q).
Proof.
  intros Ht Hc Hne. unfold get_context_prob.
  rewrite Ht, (leer_contador_presente _ _ c Hc). by rewrite truediv_ok.
Qed.

(** The value of lines 47-56 for a context present in both tables. *)
Lemma get_ngram_prob_visto self ngram word total c :
  last ngram = Some word ->
  context_counts self !! Py.slice_but_last ngram = Some total ->
  ngram_counts self !! Py.slice_but_last ngram = Some c -> total <> 0 ->
  get_ngram_prob ngram self
  = (self,
     Ok ((if 0 <? Counter.get c word
          then (inject_Z (Counter.get c word) - discount self) / inject_Z total
          else 0)
         + discount self * inject_Z (Z.of_nat (size c)) / inject_Z total
           * (inject_Z (Counter.get c word) / inject_Z total))%Q).
Proof.
  intros Hw Ht Hc Hne. unfold get_ngram_prob, Py.getitem_last.
  rewrite Hw, Ht, (leer_contador_presente _ _ c Hc).
  rewrite (get_context_prob_visto _ _ _ total c) by done.
  unfold Py.fdiv. destruct (Z.eqb_spec total 0) as [?|_]; [done|].
  by destruct (0 <? Counter.get c word).
Qed.

Lemma coherente_marco self ngram :
  coherente self -> (get_ngram_prob ngram self).1 = self.
Proof.
  intros (H1 & H2 & H3).
  destruct (last ngram) as [word|] eqn:Hw.
  - destruct (context_counts self !! Py.slice_but_last ngram) as [total|] eqn:Ht.
    + destruct (H2 _ _ Ht) as (c & Hc & _ & Hpos).
      by rewrite (get_ngram_prob_visto _ _ word total c) by (done || lia).
    + by rewrite (get_ngram_prob_no_visto _ _ word).
  - unfold get_ngram_prob, Py.getitem_last. by rewrite Hw.
Qed.

Lemma coherente_marco_contexto self context word :
  coherente self -> (get_context_prob context word self).1 = self.
Proof.
  intros (H1 & H2 & H3). unfold get_context_prob.
  destruct (context_counts self !! context) as [total|] eqn:Ht; [|done].
  destruct (H2 _ _ Ht) as (c & Hc & _).
  by rewrite (leer_contador_presente _ _ c Hc).
Qed.

(** A model that training never produces: a context counted in
    [context_counts] alone.  On it the query writes to [ngram_counts]. *)
Example defaultdict_escribe_sin_coherencia :
  let suelto := mkLM 2 (3 # 4) ∅ {[ ["a"]%string := 1 ]} ∅ in
  ngram_counts (get_ngram_prob ["a"; "b"]%string suelto).1
  = {[ ["a"]%string := ∅ ]}
  /\ ngram_counts suelto = ∅.
Proof. split; reflexivity. Qed.

(** X17.  On a model trained from a fresh one, no query writes: for every
    tuple, [get_ngram_prob] leaves the model as it found it, and so does
    [get_context_prob] for every context and word.  The defaultdict reads of
    lines 48, 56 and 67 only meet contexts that [train] already filed. *)
Theorem X17_consultas_no_escriben (order : Z) (D : Q)
  (corpus0 : list (list string)) :
  let lm := (train corpus0 (__init__ order D)).1 in
  (forall ngram, (get_ngram_prob ngram lm).1 = lm)
  /\ (forall context word, (get_context_prob context word lm).1 = lm).
Proof.
  intros lm.
  pose proof (train_coherente corpus0 _ (coherente_inicial order D)) as Hco.
  fold lm in Hco. split.
  - intros ngram. by apply coherente_marco.
  - intros context word. by apply coherente_marco_contexto.
Qed.

(** ** The vocabulary *)

Lemma contar_vocab tokens i self :
  vocab self ⊆ vocab (contar tokens i self).1
  /\ ((contar tokens i self).2 = Ok tt ->
      exists w, w ∈ vocab (contar tokens i self).1).
Proof.
  unfold contar. destruct (Py.getitem_last _) as [word|e]; simpl.
  - split; [apply union_subseteq_r|]. intros _. exists word.
    apply elem_of_union. left. by apply elem_of_singleton.
  - split; [done|]. discriminate.
Qed.

Lemma entrenar_oracion_vocab sentence self :
  1 <= n self -> exists w, w ∈ vocab (entrenar_oracion sentence self).1.
Proof.
  intros Hn. unfold entrenar_oracion. cbv zeta.
  set (tokens := _ ++ _).
  assert (Hlen : Z.of_nat (length tokens) = n self + Z.of_nat (length sentence)).
  { unfold tokens. rewrite !length_app, length_replicate. simpl. lia. }
  unfold Py.range.
  destruct (Z.to_nat (Z.of_nat (length tokens) - n self + 1)) as [|k] eqn:Hk;
    [lia|].
  rewrite <- cons_seq. simpl.
  pose proof (contar_dentro tokens 0 self Hn) as H0.
  destruct (contar_vocab tokens 0 self) as [_ Hv].
  destruct (contar tokens 0 self) as [s1 r1]. simpl in *.
  rewrite H0 in * by lia. destruct (Hv eq_refl) as [w Hw]. exists w.
  apply (para_cada_invariante (contar tokens) (fun s => w ∈ vocab s)); [|done].
  intros i s Hs. by apply (proj1 (contar_vocab tokens i s)).
Qed.

Lemma train_vocab corpus0 self :
  1 <= n self -> corpus0 <> [] -> (1 <= size (vocab (train corpus0 self).1))%nat.
Proof.
  intros Hn Hne. destruct corpus0 as [|sentence rest]; [done|].
  unfold train. simpl.
  destruct (entrenar_oracion_vocab sentence self Hn) as [w Hw].
  pose proof (entrenar_oracion_ok sentence self Hn) as Hok.
  destruct (entrenar_oracion sentence self) as [s1 r1]. simpl in *. subst r1.
  assert (Hin : w ∈ vocab (para_cada entrenar_oracion rest s1).1).
  { apply (para_cada_invariante entrenar_oracion (fun s => w ∈ vocab s));
      [|done].
    intros sent s Hs. unfold entrenar_oracion. cbv zeta.
    apply (para_cada_invariante _ (fun t => w ∈ vocab t)); [|done].
    intros i t Ht. by apply (proj1 (contar_vocab _ i t)). }
  destruct (size (vocab (para_cada entrenar_oracion rest s1).1)) eqn:Hsz; [|lia].
  apply size_empty_inv in Hsz. rewrite Hsz in Hin.
  by apply not_elem_of_empty in Hin.
Qed.

(** X18.  For a tuple whose context was never seen in training,
    [get_ngram_prob] returns the uniform value [1 / len(vocab)], whatever
    the word; on a model trained with an order [n >= 1] on a corpus with at
    least one sentence the vocabulary is not empty, so the value is
    returned and lies in (0, 1]. *)
Theorem X18_contexto_no_visto (order : Z) (D : Q)
  (corpus0 : list (list string)) (ngram : list string) (word : string) :
  1 <= order -> corpus0 <> [] ->
  let lm := (train corpus0 (__init__ order D)).1 in
  last ngram = Some word ->
  context_counts lm !! Py.slice_but_last ngram = None ->
  get_ngram_prob ngram lm
  = (lm, Ok (inject_Z 1 / inject_Z (Z.of_nat (size (vocab lm))))%Q)
  /\ (1 <= size (vocab lm))%nat
  /\ (0 < inject_Z 1 / inject_Z (Z.of_nat (size (vocab lm))) <= 1)%Q.
Proof.
  intros Ho Hne lm Hw Hc.
  pose proof (train_vocab corpus0 (__init__ order D) Ho Hne) as Hv.
  fold lm in Hv.
  rewrite (get_ngram_prob_no_visto _ _ word) by done.
  rewrite truediv_ok by lia.
  split; [done|]. split; [done|].
  assert (Hpos : (0 < inject_Z (Z.of_nat (size (vocab lm))))%Q)
    by (apply inject_Z_pos; lia).
  split.
  - apply Qlt_shift_div_l; [done|]. rewrite Qmult_0_l. reflexivity.
  - apply Qle_shift_div_r; [done|]. rewrite Qmult_1_l.
    rewrite <- Zle_Qle. lia.
Qed.

(** X18 on the model of [main] and a context it never saw. *)
Lemma X18_testigo :
  get_ngram_prob ["zebra"; "is"]%string model
  = (model, Ok (inject_Z 1 / inject_Z (Z.of_nat (size (vocab model))))%Q)
  /\ (1 <= size (vocab model))%nat
  /\ (0 < inject_Z 1 / inject_Z (Z.of_nat (size (vocab model))) <= 1)%Q.
Proof.
  apply (X18_contexto_no_visto 2 (3 # 4) corpus ["zebra"; "is"]%string "is"%string).
  - lia.
  - discriminate.
  - reflexivity.
  - vm_compute. reflexivity.
Defined.

(** ** Seen contexts *)

(** X19.  On a model trained from a fresh one, a word never seen after a
    context that was seen gets probability 0: the discounted term is
    skipped and the backoff term is weighted by the word's own relative
    frequency after that context, which is 0. *)
Theorem X19_palabra_no_vista (order : Z) (D : Q)
  (corpus0 : list (list string)) (ngram : list string) (word : string)
  (c : gmap string Z) :
  let lm := (train corpus0 (__init__ order D)).1 in
  last ngram = Some word ->
  ngram_counts lm !! Py.slice_but_last ngram = Some c ->
  c !! word = None ->
  exists p, get_ngram_prob ngram lm = (lm, Ok p) /\ (p == 0)%Q.
Proof.
  intros lm Hw Hc Hno.
  destruct (train_coherente corpus0 _ (coherente_inicial order D))
    as (H1 & H2 & H3).
  fold lm in H1, H2, H3.
  destruct (context_counts lm !! Py.slice_but_last ngram) as [total|] eqn:Ht;
    [|by rewrite (H1 _ Ht) in Hc].
  destruct (H2 _ _ Ht) as (c' & Hc' & _ & Hpos). simplify_eq.
  rewrite (get_ngram_prob_visto _ _ word total c) by (done || lia).
  assert (Hcero : Counter.get c word = 0) by (unfold Counter.get; by rewrite Hno).
  rewrite Hcero. change (0 <? 0) with false. cbv iota.
  eexists. split; [done|].
  unfold Qdiv at 2. rewrite Qmult_0_l, Qmult_0_r. reflexivity.
Qed.

(** X19 on the model of [main]: "test" never follows "is". *)
Lemma X19_testigo :
  exists p, get_ngram_prob ["is"; "test"]%string model = (model, Ok p)
            /\ (p == 0)%Q.
Proof.
  apply (X19_palabra_no_vista 2 (3 # 4) corpus ["is"; "test"]%string
           "test"%string (<["a"%string := 1]> (<["another"%string := 1]> ∅))).
  - reflexivity.
  - vm_compute. reflexivity.
  - vm_compute. reflexivity.
Defined.

(** X20.  On a model trained from a fresh one with a discount in [0, 1],
    a word seen [v] times after a context seen [total] times, with [T]
    distinct words after it, gets the value of
    [(v - D)/total + D * T/total * (v/total)], and this value is not
    negative: the count of a seen word is at least 1, so the discounted
    term does not go below 0. *)
Theorem X20_palabra_vista_no_negativa (order : Z) (D : Q)
  (corpus0 : list (list string)) (ngram : list string) (word : string)
  (total : Z) (c : gmap string Z) (v : Z) :
  let lm := (train corpus0 (__init__ order D)).1 in
  (0 <= D)%Q -> (D <= 1)%Q ->
  last ngram = Some word ->
  context_counts lm !! Py.slice_but_last ngram = Some total ->
  ngram_counts lm !! Py.slice_but_last ngram = Some c ->
  c !! word = Some v ->
  exists p,
    get_ngram_prob ngram lm = (lm, Ok p)
    /\ p = ((inject_Z v - D) / inject_Z total
            + D * inject_Z (Z.of_nat (size c)) / inject_Z total
              * (inject_Z v / inject_Z total))%Q
    /\ (0 <= p)%Q.
Proof.
  intros lm HD0 HD1 Hw Ht Hc Hv.
  destruct (train_coherente corpus0 _ (coherente_inicial order D))
    as (H1 & H2 & H3).
  fold lm in H1, H2, H3.
  destruct (H2 _ _ Ht) as (c' & Hc' & Hsuma & Hpos). simplify_eq.
  destruct (H3 _ _ _ _ Hc Hv) as [Hv1 _].
  rewrite (get_ngram_prob_visto _ _ word (suma_cuentas c) c) by (done || lia).
  assert (Hget : Counter.get c word = v) by (unfold Counter.get; by rewrite Hv).
  rewrite Hget. destruct (Z.ltb_spec 0 v) as [_|?]; [|lia].
  assert (Hdisc : discount lm = D)
    by apply (train_discount corpus0 (__init__ order D)).
  rewrite Hdisc.
  eexists. split; [done|]. split; [done|].
  assert (Hv1' : (1 <= inject_Z v)%Q)
    by (change 1%Q with (inject_Z 1); by rewrite <- Zle_Qle).
  assert (Hnum : (0 <= inject_Z v - D)%Q).
  { unfold Qminus. apply (proj1 (Qle_minus_iff D (inject_Z v))).
    by apply (Qle_trans _ 1). }
  replace 0%Q with (0 + 0)%Q by reflexivity.
  apply Qplus_le_compat.
  - apply Q_div_no_neg; [done | lia].
  - apply Qmult_le_0_compat.
    + apply Q_div_no_neg; [|lia].
      apply Qmult_le_0_compat; [done | apply inject_Z_no_neg; lia].
    + apply Q_div_no_neg; [apply inject_Z_no_neg | ]; lia.
Qed.

(** X20 on the model of [main]: "a" is one of the two words seen after
    "is", each once. *)
Lemma X20_testigo :
  exists p,
    get_ngram_prob ["is"; "a"]%string model = (model, Ok p)
    /\ p = ((inject_Z 1 - (3 # 4)) / inject_Z 2
            + (3 # 4)
              * inject_Z (Z.of_nat (size (<["a"%string := 1%Z]>
                                            (<["another"%string := 1%Z]>
                                               (∅ : gmap string Z)))))
              / inject_Z 2
              * (inject_Z 1 / inject_Z 2))%Q
    /\ (0 <= p)%Q.
Proof.
  apply (X20_palabra_vista_no_negativa 2 (3 # 4) corpus ["is"; "a"]%string
           "a"%string 2 (<["a"%string := 1]> (<["another"%string := 1]> ∅)) 1).
  - vm_compute. discriminate.
  - vm_compute. discriminate.
  - reflexivity.
  - vm_compute. reflexivity.
  - vm_compute. reflexivity.
  - vm_compute. reflexivity.
Defined.

(** ** What [train] counts *)

Lemma slice_but_last_snoc context word :
  Py.slice_but_last (context ++ [word]) = context.
Proof.
  unfold Py.slice_but_last. apply take_app_length'.
  rewrite length_app. simpl. lia.
Qed.

Lemma ultimo_snoc ngram word :
  last ngram = Some word -> ngram = Py.slice_but_last ngram ++ [word].
Proof.
  intros Hw. apply last_Some in Hw as [l' ->].
  by rewrite slice_but_last_snoc.
Qed.

Lemma tabla_de_entrenamiento_inicial order D :
  tabla_de_entrenamiento (__init__ order D) [].
Proof.
  split.
  - intros context word. simpl. rewrite lookup_empty. simpl.
    by rewrite get_empty.
  - intros context. simpl. by rewrite get_empty.
Qed.

Lemma contar_tabla tokens i self vistos :
  1 <= n self -> Z.of_nat i + n self <= Z.of_nat (length tokens) ->
  tabla_de_entrenamiento self vistos ->
  tabla_de_entrenamiento (contar tokens i self).1
    (vistos ++ [take (Z.to_nat (n self)) (drop i tokens)]).
Proof.
  intros Hn Hi [Hng Hctx]. unfold contar. rewrite slice_dentro by lia.
  replace (Z.to_nat (Z.of_nat i + n self - Z.of_nat i)) with (Z.to_nat (n self))
    by lia.
  rewrite Nat2Z.id.
  set (g := take (Z.to_nat (n self)) (drop i tokens)).
  destruct (last_is_Some g) as [w0 Hw0].
  { intros Hnil. apply (f_equal length) in Hnil. unfold g in Hnil.
    rewrite length_take, length_drop in Hnil. simpl in Hnil. lia. }
  unfold Py.getitem_last. rewrite Hw0. simpl.
  pose proof (ultimo_snoc g w0 Hw0) as Hg.
  set (ctx0 := Py.slice_but_last g) in *.
  split.
  - intros context word. simpl.
    rewrite ocurrencias_app, ocurrencias_cons, ocurrencias_nil.
    destruct (decide (ctx0 = context)) as [<-|Hne].
    + rewrite lookup_insert_eq. simpl.
      destruct (decide (w0 = word)) as [<-|Hnw].
      * rewrite get_incr_eq, Hng, decide_True by done. lia.
      * rewrite get_incr_ne, Hng by done. rewrite decide_False; [lia|].
        rewrite Hg. intros Heq. apply app_inj_tail in Heq as [_ ?]. done.
    + rewrite lookup_insert_ne, Hng by done. rewrite decide_False; [lia|].
      rewrite Hg. intros Heq. apply app_inj_tail in Heq as [? _]. done.
  - intros context. simpl.
    rewrite filter_app, length_app, filter_cons, filter_nil.
    destruct (decide (ctx0 = context)) as [<-|Hne].
    + rewrite get_incr_eq, Hctx, decide_True by done. simpl. lia.
    + rewrite get_incr_ne, Hctx by done.
      rewrite decide_False by done. simpl. lia.
Qed.

Lemma para_cada_contar_tabla tokens (order : Z) (posiciones : list nat) :
  1 <= order ->
  (forall i, i ∈ posiciones -> Z.of_nat i + order <= Z.of_nat (length tokens)) ->
  forall self vistos,
    n self = order -> tabla_de_entrenamiento self vistos ->
    n (para_cada (contar tokens) posiciones self).1 = order
    /\ tabla_de_entrenamiento (para_cada (contar tokens) posiciones self).1
         (vistos ++ ((fun i => take (Z.to_nat order) (drop i tokens))
                       <$> posiciones)).
Proof.
  intros Ho. induction posiciones as [|i rest IH]; intros Hpos self vistos Hn Htab.
  - simpl. by rewrite app_nil_r.
  - simpl.
    assert (Hi : Z.of_nat i + n self <= Z.of_nat (length tokens))
      by (rewrite Hn; apply Hpos, list_elem_of_here).
    pose proof (contar_dentro tokens i self ltac:(lia) Hi) as Hok.
    pose proof (contar_tabla tokens i self vistos ltac:(lia) Hi Htab) as Ht.
    pose proof (proj1 (contar_config tokens i self)) as Hn'.
    destruct (contar tokens i self) as [s1 r1]. simpl in *. subst r1.
    rewrite Hn in Ht.
    destruct (IH (fun j Hj => Hpos j (list_elem_of_further _ _ _ Hj)) s1 _
                ltac:(lia) Ht) as [Hn'' Ht'].
    split; [done|]. by rewrite <- app_assoc in Ht'.
Qed.

Lemma entrenar_oracion_tabla sentence self vistos :
  1 <= n self -> tabla_de_entrenamiento self vistos ->
  n (entrenar_oracion sentence self).1 = n self
  /\ tabla_de_entrenamiento (entrenar_oracion sentence self).1
       (vistos ++ ventanas_contiguas (Z.to_nat (n self))
                    (relleno (n self) sentence)).
Proof.
  intros Hn Htab. unfold entrenar_oracion. cbv zeta.
  fold (relleno (n self) sentence). set (tokens := relleno (n self) sentence).
  unfold ventanas_contiguas, Py.range.
  replace (length tokens + 1 - Z.to_nat (n self))%nat
    with (Z.to_nat (Z.of_nat (length tokens) - n self + 1)) by lia.
  apply para_cada_contar_tabla; try done.
  intros i Hi. apply elem_of_seq in Hi. lia.
Qed.

Lemma train_tabla corpus0 :
  forall self vistos,
    1 <= n self -> tabla_de_entrenamiento self vistos ->
    n (train corpus0 self).1 = n self
    /\ tabla_de_entrenamiento (train corpus0 self).1
         (vistos ++ ventanas_de_entrenamiento (n self) corpus0).
Proof.
  unfold train, ventanas_de_entrenamiento.
  induction corpus0 as [|sentence rest IH]; intros self vistos Hn Htab.
  - simpl. by rewrite app_nil_r.
  - rewrite bind_cons.
    change (para_cada entrenar_oracion (sentence :: rest) self)
      with (match entrenar_oracion sentence self with
            | (s', Ok _) => para_cada entrenar_oracion rest s'
            | (s', Raise e) => (s', Raise e)
            end).
    pose proof (entrenar_oracion_ok sentence self Hn) as Hok.
    destruct (entrenar_oracion_tabla sentence self vistos Hn Htab) as [Hn' Ht].
    destruct (entrenar_oracion sentence self) as [s1 r1]. simpl in *. subst r1.
    destruct (IH s1 _ ltac:(lia) Ht) as [Hn'' Ht'].
    rewrite Hn' in *. split; [done|]. by rewrite <- app_assoc in Ht'.
Qed.

(** X22.  With an order [n >= 1], on a model trained from a fresh one,
    [ngram_counts[context][word]] is the number of times the n-gram
    [context + (word,)] occurs as a window of [n] consecutive tokens of a
    sentence padded with [n - 1] start markers and one end marker, and
    [context_counts[context]] is the number of such windows that begin with
    [context]. *)
Theorem X22_train_cuenta_ventanas (order : Z) (D : Q)
  (corpus0 : list (list string)) (context : list string) (word : string) :
  1 <= order ->
  let lm := (train corpus0 (__init__ order D)).1 in
  Counter.get (default ∅ (ngram_counts lm !! context)) word
  = ocurrencias (context ++ [word]) (ventanas_de_entrenamiento order corpus0)
  /\ Counter.get (context_counts lm) context
     = Z.of_nat (length (filter (fun g => Py.slice_but_last g = context)
                           (ventanas_de_entrenamiento order corpus0))).
Proof.
  intros Ho lm.
  destruct (train_tabla corpus0 (__init__ order D) [] Ho
              (tabla_de_entrenamiento_inicial order D)) as [_ [Hng Hctx]].
  simpl in Hng, Hctx. fold lm in Hng, Hctx. split; [apply Hng | apply Hctx].
Qed.

(** X22 on the model of [main]: "this is" occurs twice, and "this" opens
    two windows. *)
Lemma X22_testigo :
  Counter.get (default ∅ (ngram_counts model !! ["this"]%string)) "is"%string
  = ocurrencias (["this"]%string ++ ["is"]%string)
      (ventanas_de_entrenamiento 2 corpus)
  /\ Counter.get (context_counts model) ["this"]%string
     = Z.of_nat (length (filter (fun g => Py.slice_but_last g = ["this"]%string)
                           (ventanas_de_entrenamiento 2 corpus))).
Proof.
  apply (X22_train_cuenta_ventanas 2 (3 # 4) corpus ["this"]%string "is"%string).
  lia.
Defined.

End Ejemplo.
